(** * Text-Annotation-Pipeline: a shallow embedding of [process_annotations.py]

    Strings are modelled as the bytes of their UTF-8 encoding ([string] of
    [ascii]).  The encoding is injective, so Python's exact string equality is
    byte equality; it preserves code-point order, so Python's lexicographic
    [str] comparison is byte-lexicographic comparison; it commutes with
    concatenation, and every byte of a non-ASCII character is >= 0x80, so the
    per-character escaping of [json.dumps(..., ensure_ascii=False)] is a
    per-byte escaping.

    Python's [float] type, the builtin [float(s)] on a [str] and the [>=] on
    floats are not code of this repository: they are the section variables
    [F], [py_float] and [py_ge].  [py_float s = None] is the [ValueError] case. *)

From Stdlib Require Import String Ascii List Bool Arith Lia Permutation Sorted ZArith QArith.
Import ListNotations.

Open Scope list_scope.

(** ** Python values and exceptions *)

(** A value of a [csv.DictReader] row: a [str], or [None] (the reader's
    [restval]) for a field missing at the end of a short data row. *)
Inductive value : Type :=
| VStr (s : string)
| VNone.

Definition value_eq_dec (x y : value) : {x = y} + {x <> y}.
Proof. decide equality; apply string_dec. Defined.

Definition value_eqb (x y : value) : bool :=
  if value_eq_dec x y then true else false.

(** The exceptions the pipeline can raise on its data. *)
Inductive exc : Type :=
| KeyError (k : string)
| ValueError
| TypeError.

Inductive result (A : Type) : Type :=
| Ok (a : A)
| Err (e : exc).
Arguments Ok {A} a.
Arguments Err {A} e.

(** ** Python dicts, as association lists in insertion order *)

(** [d[k] = v]: an existing key keeps its position, a new key goes last. *)
Fixpoint dict_set {K V : Type} (dec : forall x y : K, {x = y} + {x <> y})
    (k : K) (v : V) (d : list (K * V)) : list (K * V) :=
  match d with
  | [] => [(k, v)]
  | (k', v') :: d' =>
      if dec k k' then (k', v) :: d' else (k', v') :: dict_set dec k v d'
  end.

Fixpoint dict_lookup {V : Type} (k : string) (d : list (string * V)) : option V :=
  match d with
  | [] => None
  | (k', v) :: d' => if string_dec k k' then Some v else dict_lookup k d'
  end.

(** A raw record: a dict from column name to value. *)
Definition row : Type := list (string * value).

(** [row[k]] *)
Definition getitem (r : row) (k : string) : result value :=
  match dict_lookup k r with
  | Some v => Ok v
  | None => Err (KeyError k)
  end.

(** [row.get(k)] *)
Definition get (r : row) (k : string) : value :=
  match dict_lookup k r with
  | Some v => v
  | None => VNone
  end.

(** ** Record Loader: [read_raw_annotations]

    One data row of [csv.DictReader], from the header [fieldnames] and the
    fields of the row as split by the csv tokenizer:
    [d = dict(zip(fieldnames, row))], then [d[key] = restval] (None) for every
    header name past the end of a short row.  Fields past the end of the
    header go under the reader's [restkey] [None], a key no stage reads; they
    are left out. *)
Definition dict_reader_row (fieldnames fields : list string) : row :=
  let d := fold_left (fun d kv => dict_set string_dec (fst kv) (VStr (snd kv)) d)
             (combine fieldnames fields) [] in
  fold_left (fun d k => dict_set string_dec k VNone d)
    (skipn (length fields) fieldnames) d.

(** [for row in reader: annotations.append(row)]; the reader skips rows with
    no field at all. *)
Definition read_raw_annotations (fieldnames : list string)
    (records : list (list string)) : list row :=
  map (dict_reader_row fieldnames)
    (filter (fun fs => match fs with [] => false | _ => true end) records).

Section Pipeline.

Variable F : Type.
Variable py_float : string -> option F.
Variable py_ge : F -> F -> bool.

(** [float(v)] on a row value: [TypeError] on [None]. *)
Definition to_float (v : value) : result F :=
  match v with
  | VStr s => match py_float s with
              | Some f => Ok f
              | None => Err ValueError
              end
  | VNone => Err TypeError
  end.

(** An accepted annotation: the dict built by [filter_by_confidence]. *)
Record ann : Type := mk_ann {
  text : value;
  annotator_id : value;
  label : value;
  confidence_score : F
}.

(** ** Confidence Filter: [filter_by_confidence]

    The [try] covers [float(row["confidence_score"])] and catches [KeyError]
    and [ValueError]; any other exception, and the lookups of ["text"] and
    ["label"] after the threshold test, propagate. *)
Fixpoint filter_by_confidence (annotations : list row) (threshold : F)
    : result (list ann) :=
  match annotations with
  | [] => Ok []
  | r :: rest =>
      match match getitem r "confidence_score" with
            | Ok v => to_float v
            | Err e => Err e
            end with
      | Err (KeyError _) | Err ValueError => filter_by_confidence rest threshold
      | Err e => Err e
      | Ok confidence =>
          if py_ge confidence threshold then
            match getitem r "text" with
            | Err e => Err e
            | Ok t =>
                let a := get r "annotator_id" in
                match getitem r "label" with
                | Err e => Err e
                | Ok l =>
                    match filter_by_confidence rest threshold with
                    | Err e => Err e
                    | Ok out => Ok (mk_ann t a l confidence :: out)
                    end
                end
            end
          else filter_by_confidence rest threshold
      end
  end.

(** ** Grouper: [group_by_text]

    [grouped[ann["text"]].append(ann)] on a [defaultdict(list)]: a key seen
    for the first time gets a new list at the end of the dict. *)
Fixpoint group_insert (k : value) (a : ann) (g : list (value * list ann))
    : list (value * list ann) :=
  match g with
  | [] => [(k, [a])]
  | (k', anns) :: g' =>
      if value_eq_dec k k' then (k', anns ++ [a]) :: g'
      else (k', anns) :: group_insert k a g'
  end.

Definition group_by_text (annotations : list ann) : list (value * list ann) :=
  fold_left (fun g a => group_insert (text a) a g) annotations [].

(** ** Agreement Resolver: [apply_agreement_check]

    [labels = {a["label"] for a in anns}] is a Python set: its elements are
    the distinct labels, its iteration order is the one of the hash table,
    which depends on the per-process string hash seed.  [enum] stands for
    that order: it lists the elements of the set, given without duplicates. *)
Definition label_set (enum : list value -> list value) (anns : list ann)
    : list value :=
  enum (nodup value_eq_dec (map label anns)).

(** One iteration of [for text, anns in grouped_annotations.items()];
    [labels.pop()] on a one-element set returns its element. *)
Definition agreement_step (enum : list value -> list value)
    (acc : list (value * value) * list (value * list value))
    (kv : value * list ann) : list (value * value) * list (value * list value) :=
  let '(agreed_samples, disagreements) := acc in
  let '(t, anns) := kv in
  let labels := label_set enum anns in
  if length labels =? 1
  then (dict_set value_eq_dec t (hd VNone labels) agreed_samples, disagreements)
  else (agreed_samples, disagreements ++ [(t, labels)]).

Definition apply_agreement_check (enum : list value -> list value)
    (grouped_annotations : list (value * list ann))
    : list (value * value) * list (value * list value) :=
  fold_left (agreement_step enum) grouped_annotations ([], []).

End Pipeline.

Arguments to_float {F} py_float v.
Arguments mk_ann {F} text annotator_id label confidence_score.
Arguments text {F} a.
Arguments annotator_id {F} a.
Arguments label {F} a.
Arguments confidence_score {F} a.
Arguments filter_by_confidence {F} py_float py_ge annotations threshold.
Arguments group_insert {F} k a g.
Arguments group_by_text {F} annotations.
Arguments label_set {F} enum anns.
Arguments agreement_step {F} enum acc kv.
Arguments apply_agreement_check {F} enum grouped_annotations.

(** ** Output Writer: [write_outputs] *)

Open Scope string_scope.

Definition dq : ascii := "034"%char.   (* the double quote *)
Definition bsl : ascii := "092"%char.  (* the backslash *)
Definition nl : string := String "010"%char EmptyString.

(** Python [str(v)] as used by the f-string. *)
Definition py_str (v : value) : string :=
  match v with
  | VStr s => s
  | VNone => "None"
  end.

(** Lower-case hexadecimal digit of [n < 16]. *)
Definition hex_digit (n : nat) : ascii :=
  ascii_of_nat (if (n <? 10)%nat then (48 + n)%nat else (87 + n)%nat).

(** The escape table of [json.dumps(..., ensure_ascii=False)]: two-character
    escapes for the quote, the backslash, \b \f \n \r \t, [\u00xx] for the
    other control characters below 0x20, every other byte as it is.  (Rocq
    string literals have no escapes: ["n"] after [bsl] is the letter n.) *)
Definition json_escape_char (c : ascii) : string :=
  let n := nat_of_ascii c in
  if Nat.eqb n 34 then String bsl (String dq EmptyString)
  else if Nat.eqb n 92 then String bsl (String bsl EmptyString)
  else if Nat.eqb n 8 then String bsl "b"
  else if Nat.eqb n 12 then String bsl "f"
  else if Nat.eqb n 10 then String bsl "n"
  else if Nat.eqb n 13 then String bsl "r"
  else if Nat.eqb n 9 then String bsl "t"
  else if Nat.ltb n 32 then
    String bsl ("u00" ++ String (hex_digit (n / 16))
                           (String (hex_digit (n mod 16)) EmptyString))
  else String c EmptyString.

Fixpoint json_escape (s : string) : string :=
  match s with
  | EmptyString => EmptyString
  | String c s' => json_escape_char c ++ json_escape s'
  end.

Definition json_value (v : value) : string :=
  match v with
  | VStr s => String dq (json_escape s ++ String dq EmptyString)
  | VNone => "null"
  end.

(** [json.dumps({"text": text, "label": label}, ensure_ascii=False)], with the
    default separators [", "] and [": "]. *)
Definition json_record (t l : value) : string :=
  "{" ++ json_value (VStr "text") ++ ": " ++ json_value t ++ ", "
      ++ json_value (VStr "label") ++ ": " ++ json_value l ++ "}".

(** The clean dataset: [for text, label in agreed_samples.items()]. *)
Fixpoint write_clean (agreed_samples : list (value * value)) : string :=
  match agreed_samples with
  | [] => EmptyString
  | (t, l) :: rest => json_record t l ++ nl ++ write_clean rest
  end.

(** Python's [<] on [str]: lexicographic, a proper prefix is smaller. *)
Fixpoint str_ltb (a b : string) : bool :=
  match a, b with
  | EmptyString, EmptyString => false
  | EmptyString, String _ _ => true
  | String _ _, EmptyString => false
  | String c a', String d b' =>
      if Nat.ltb (nat_of_ascii c) (nat_of_ascii d) then true
      else if Nat.eqb (nat_of_ascii c) (nat_of_ascii d) then str_ltb a' b'
      else false
  end.

Definition str_leb (a b : string) : bool := negb (str_ltb b a).

Fixpoint insert_sorted (x : string) (l : list string) : list string :=
  match l with
  | [] => [x]
  | y :: ys => if str_leb x y then x :: y :: ys else y :: insert_sorted x ys
  end.

(** [sorted] on a list of [str]: the sorted permutation, which is unique
    because equal strings are identical. *)
Fixpoint sort_strs (l : list string) : list string :=
  match l with
  | [] => []
  | x :: xs => insert_sorted x (sort_strs xs)
  end.

Fixpoint join (sep : string) (l : list string) : string :=
  match l with
  | [] => EmptyString
  | [x] => x
  | x :: xs => x ++ sep ++ join sep xs
  end.

Definition is_str (v : value) : bool :=
  match v with
  | VStr _ => true
  | VNone => false
  end.

(** [", ".join(sorted(labels))]: [sorted] raises [TypeError] when it has to
    compare [None] with a [str], and [join] raises it on a [None] item. *)
Definition label_list (labels : list value) : result string :=
  if forallb is_str labels
  then Ok (join ", " (sort_strs (map py_str labels)))
  else Err TypeError.

(** [f'TEXT: {text} | LABELS: {label_list}\n'] *)
Definition report_line (t : value) (labels : list value) : result string :=
  match label_list labels with
  | Ok s => Ok ("TEXT: " ++ py_str t ++ " | LABELS: " ++ s ++ nl)
  | Err e => Err e
  end.

(** The disagreement report: the lines written before an exception stay in
    the file, which the [with] block closes (and flushes) on the way out. *)
Fixpoint write_report (disagreements : list (value * list value))
    : string * option exc :=
  match disagreements with
  | [] => (EmptyString, None)
  | (t, labels) :: rest =>
      match report_line t labels with
      | Err e => (EmptyString, Some e)
      | Ok line => let '(s, e) := write_report rest in (line ++ s, e)
      end
  end.

Record outputs : Type := mk_outputs {
  clean_file : string;
  disagreements_file : string;
  write_error : option exc
}.

Definition write_outputs (agreed_samples : list (value * value))
    (disagreements : list (value * list value)) : outputs :=
  let '(rep, e) := write_report disagreements in
  mk_outputs (write_clean agreed_samples) rep e.

(** ** The pipeline: [main], from the tokenized csv records onwards. *)
Definition run {F : Type} (py_float : string -> option F) (py_ge : F -> F -> bool)
    (enum : list value -> list value) (fieldnames : list string)
    (records : list (list string)) (threshold : F) : result outputs :=
  match filter_by_confidence py_float py_ge
          (read_raw_annotations fieldnames records) threshold with
  | Err e => Err e
  | Ok high_conf_annotations =>
      let '(agreed_samples, disagreements) :=
        apply_agreement_check enum (group_by_text high_conf_annotations) in
      Ok (write_outputs agreed_samples disagreements)
  end.

(** ** The QC1 policy, as the specification states it *)

Section Qc1Spec.

Variable F : Type.
Variable py_float : string -> option F.
Variable py_ge : F -> F -> bool.

(** The confidence of a record that passes QC1: the [confidence_score] key
    is present, its value parses as a float, and that float is [>= threshold]. *)
Definition qc1 (threshold : F) (r : row) : option F :=
  match dict_lookup "confidence_score" r with
  | Some (VStr s) =>
      match py_float s with
      | Some c => if py_ge c threshold then Some c else None
      | None => None
      end
  | _ => None
  end.

(** The annotations of the records that pass QC1, in input order. *)
Fixpoint accepted (threshold : F) (rows : list row) : list (ann F) :=
  match rows with
  | [] => []
  | r :: rs =>
      match qc1 threshold r with
      | Some c => mk_ann (get r "text") (get r "annotator_id") (get r "label") c
                  :: accepted threshold rs
      | None => accepted threshold rs
      end
  end.

(** The first record that passes QC1 but lacks the ["text"] or the ["label"]
    key: the key looked up first that is absent. *)
Fixpoint first_missing_key (threshold : F) (rows : list row) : option string :=
  match rows with
  | [] => None
  | r :: rs =>
      match qc1 threshold r with
      | Some _ =>
          match dict_lookup "text" r, dict_lookup "label" r with
          | None, _ => Some "text"
          | Some _, None => Some "label"
          | Some _, Some _ => first_missing_key threshold rs
          end
      | None => first_missing_key threshold rs
      end
  end.

End Qc1Spec.

Arguments qc1 {F} py_float py_ge threshold r.
Arguments accepted {F} py_float py_ge threshold rows.
Arguments first_missing_key {F} py_float py_ge threshold rows.

(** ** Sample runs

    A stand-in for [float(s)] on unsigned decimal literals ([d+] or
    [d+.d+]), as rationals, used to run the pipeline on concrete rows; it
    refuses every other string. *)
Definition digit_of (c : ascii) : option Z :=
  let n := nat_of_ascii c in
  if (Nat.leb 48 n && Nat.leb n 57)%bool then Some (Z.of_nat (n - 48)) else None.

Fixpoint frac_part (s : string) (num : Z) (den : positive) : option Q :=
  match s with
  | EmptyString => Some (Qmake num den)
  | String c s' =>
      match digit_of c with
      | Some d => frac_part s' (num * 10 + d)%Z (den * 10)%positive
      | None => None
      end
  end.

Fixpoint int_part (s : string) (num : Z) (seen : bool) : option Q :=
  match s with
  | EmptyString => if seen then Some (Qmake num 1) else None
  | String c s' =>
      if ascii_dec c "." then
        match seen, s' with
        | true, String _ _ => frac_part s' num 1
        | _, _ => None
        end
      else match digit_of c with
           | Some d => int_part s' (num * 10 + d)%Z true
           | None => None
           end
  end.

Definition decimal_float (s : string) : option Q := int_part s 0 false.

Definition q_ge (x y : Q) : bool := Qle_bool y x.

Definition header : list string :=
  ["text"; "annotator_id"; "label"; "confidence_score"].

Definition q_run := run decimal_float q_ge (fun l => l) header.

Definition qc1_rows : list row :=
  read_raw_annotations header
    [["y"; "a"; "neg"; "0.8"]; ["z"; "b"; "neg"; "abc"]; ["w"; "c"; "pos"; "0.5"];
     ["v"; "d"; "pos"; "0.95"]].

(** ** Grouping, as the specification states it *)

(** The distinct elements of a list, in order of first occurrence. *)
Fixpoint first_seen_from (seen : list value) (l : list value) : list value :=
  match l with
  | [] => []
  | x :: xs =>
      if in_dec value_eq_dec x seen then first_seen_from seen xs
      else x :: first_seen_from (x :: seen) xs
  end.

Definition first_seen (l : list value) : list value := first_seen_from [] l.

(** The annotations of a text, in input order. *)
Definition members {F : Type} (t : value) (anns : list (ann F)) : list (ann F) :=
  filter (fun a => value_eqb (text a) t) anns.


(** The data row [hello,alice,pos], one field short of the header. *)
Definition short_rows : list row :=
  read_raw_annotations header [["hello"; "alice"; "pos"]].

(** A record with a confidence and a label but no ["text"] column. *)
Definition no_text_row : row :=
  dict_reader_row ["confidence_score"; "label"] ["0.9"; "cat"].

(** ** Agreement, as the specification states it *)

(** A group agrees when its set of labels has exactly one element. *)
Definition agrees {F : Type} (enum : list value -> list value)
    (kv : value * list (ann F)) : bool :=
  Nat.eqb (length (label_set enum (snd kv))) 1.

Definition agreed_entry {F : Type} (enum : list value -> list value)
    (kv : value * list (ann F)) : value * value :=
  (fst kv, hd VNone (label_set enum (snd kv))).

Definition disagreement_entry {F : Type} (enum : list value -> list value)
    (kv : value * list (ann F)) : value * list value :=
  (fst kv, label_set enum (snd kv)).

(** The distinct labels of a group. *)
Definition distinct_labels {F : Type} (anns : list (ann F)) : list value :=
  nodup value_eq_dec (map label anns).


(** ** Reading the output files back *)

(** The number of newline bytes of a string. *)
Fixpoint count_nl (s : string) : nat :=
  match s with
  | EmptyString => 0
  | String c s' =>
      if ascii_dec c "010" then S (count_nl s') else count_nl s'
  end.

(** The text up to the first newline, and what follows that newline. *)
Fixpoint split_nl (s : string) : string * option string :=
  match s with
  | EmptyString => (EmptyString, None)
  | String c s' =>
      if ascii_dec c "010" then (EmptyString, Some s')
      else let '(l, r) := split_nl s' in (String c l, r)
  end.

Fixpoint lines_fuel (n : nat) (s : string) : list string :=
  match n with
  | O => []
  | S n' =>
      match s with
      | EmptyString => []
      | String _ _ =>
          let '(l, r) := split_nl s in
          match r with
          | None => [l]
          | Some s' => l :: lines_fuel n' s'
          end
      end
  end.

(** The lines of a file, without their newline terminators. *)
Definition lines (s : string) : list string := lines_fuel (String.length s) s.

Fixpoint strip_prefix (p s : string) : option string :=
  match p, s with
  | EmptyString, _ => Some s
  | String c p', String d s' => if ascii_dec c d then strip_prefix p' s' else None
  | String _ _, EmptyString => None
  end.

Definition hex_val (c : ascii) : option nat :=
  let n := nat_of_ascii c in
  if (Nat.leb 48 n && Nat.leb n 57)%bool then Some (n - 48)%nat
  else if (Nat.leb 97 n && Nat.leb n 102)%bool then Some (n - 87)%nat
  else if (Nat.leb 65 n && Nat.leb n 70)%bool then Some (n - 55)%nat
  else None.

(** A [\uXXXX] escape of an ASCII character. *)
Definition hex4 (h1 h2 h3 h4 : ascii) : option ascii :=
  match hex_val h1, hex_val h2, hex_val h3, hex_val h4 with
  | Some O, Some O, Some a, Some b =>
      if Nat.ltb (a * 16 + b)%nat 128 then Some (ascii_of_nat (a * 16 + b)%nat)
      else None
  | _, _, _, _ => None
  end.

(** The character of a two-character JSON escape. *)
Definition simple_escape (e : ascii) : option ascii :=
  let n := nat_of_ascii e in
  if Nat.eqb n 34 then Some dq
  else if Nat.eqb n 92 then Some bsl
  else if Nat.eqb n 47 then Some "/"%char
  else if ascii_dec e "b" then Some "008"%char
  else if ascii_dec e "f" then Some "012"%char
  else if ascii_dec e "n" then Some "010"%char
  else if ascii_dec e "r" then Some "013"%char
  else if ascii_dec e "t" then Some "009"%char
  else None.

Definition cons_result (c : ascii) (r : option (string * string))
    : option (string * string) :=
  match r with
  | Some (u, rest) => Some (String c u, rest)
  | None => None
  end.

(** Decoding of the body of a JSON string, up to its closing quote: the
    decoded text and what follows the quote.  Raw control characters are
    refused, as JSON requires. *)
Fixpoint json_unescape (s : string) : option (string * string) :=
  match s with
  | EmptyString => None
  | String c s1 =>
      if ascii_dec c dq then Some (EmptyString, s1)
      else if ascii_dec c bsl then
        match s1 with
        | String e s2 =>
            match simple_escape e with
            | Some ch => cons_result ch (json_unescape s2)
            | None =>
                if ascii_dec e "u" then
                  match s2 with
                  | String h1 (String h2 (String h3 (String h4 s6))) =>
                      match hex4 h1 h2 h3 h4 with
                      | Some ch => cons_result ch (json_unescape s6)
                      | None => None
                      end
                  | _ => None
                  end
                else None
            end
        | EmptyString => None
        end
      else if Nat.ltb (nat_of_ascii c) 32 then None
      else cons_result c (json_unescape s1)
  end.

(** A JSON [null] or string, and what follows it. *)
Definition json_decode_value (s : string) : option (value * string) :=
  match strip_prefix "null" s with
  | Some r => Some (VNone, r)
  | None =>
      match s with
      | String c s' =>
          if ascii_dec c dq then
            match json_unescape s' with
            | Some (u, r) => Some (VStr u, r)
            | None => None
            end
          else None
      | EmptyString => None
      end
  end.

(** A line holding exactly the JSON object with the fields ["text"] and
    ["label"], in that order, in the layout of [json.dumps]. *)
Definition json_decode_record (line : string) : option (value * value) :=
  match strip_prefix ("{" ++ json_value (VStr "text") ++ ": ") line with
  | None => None
  | Some r1 =>
      match json_decode_value r1 with
      | None => None
      | Some (t, r2) =>
          match strip_prefix (", " ++ json_value (VStr "label") ++ ": ") r2 with
          | None => None
          | Some r3 =>
              match json_decode_value r3 with
              | Some (l, "}") => Some (t, l)
              | _ => None
              end
          end
      end
  end.

(** The entry of the disagreement report for a text and its labels, all
    [str]. *)
Definition report_entry (t : value) (labels : list value) : string :=
  "TEXT: " ++ py_str t ++ " | LABELS: "
    ++ join ", " (sort_strs (map py_str labels)) ++ nl.


(** The order-of-first-occurrence layout of the resolver's outputs. *)
Definition agreed_in_order {F : Type} (enum : list value -> list value)
    (hc : list (ann F)) : list (value * value) :=
  map (fun t => (t, hd VNone (label_set enum (members t hc))))
    (filter (fun t => agrees enum (t, members t hc)) (first_seen (map text hc))).

Definition disagreements_in_order {F : Type} (enum : list value -> list value)
    (hc : list (ann F)) : list (value * list value) :=
  map (fun t => (t, label_set enum (members t hc)))
    (filter (fun t => negb (agrees enum (t, members t hc)))
       (first_seen (map text hc))).

Fixpoint concat_strings (l : list string) : string :=
  match l with
  | [] => ""
  | s :: l' => s ++ concat_strings l'
  end.


(** Accepted annotations for the sample runs. *)
Definition sample_anns : list (ann Q) :=
  [mk_ann (VStr "x") (VStr "a") (VStr "cat") (Qmake 9 10);
   mk_ann (VStr "y") (VStr "a") (VStr "pos") (Qmake 9 10);
   mk_ann (VStr "x") (VStr "b") (VStr "dog") (Qmake 95 100);
   mk_ann (VStr "y") (VStr "b") (VStr "pos") (Qmake 85 100);
   mk_ann (VStr "z") (VStr "c") (VStr "neg") (Qmake 8 10)].

Definition sample_records : list (list string) :=
  [["x"; "a"; "cat"; "0.9"]; ["y"; "a"; "pos"; "0.9"]; ["x"; "b"; "dog"; "0.95"];
   ["w"; "a"; "neg"; "abc"]; ["y"; "b"; "pos"; "0.85"]; ["z"; "c"; "neg"; "0.8"];
   ["v"; "c"; "neg"; "0.1"]].

Definition sample_disagreements : list (value * list value) :=
  [(VStr "x", [VStr "dog"; VStr "cat"]); (VStr "q", [VStr "b"; VStr "c"; VStr "a"])].

(** A text with a line break, as a quoted csv field can hold it. *)
Definition nl_text : string := "a" ++ nl ++ "b".

Definition nl_records : list (list string) :=
  [[nl_text; "a"; "cat"; "0.9"]; [nl_text; "b"; "dog"; "0.95"]].

Definition nl_report : string := "TEXT: " ++ nl_text ++ " | LABELS: cat, dog" ++ nl.

Definition nl_report_lines : list string := ["TEXT: a"; "b | LABELS: cat, dog"].

Definition nl_disagreement : value * list value := (VStr nl_text, [VStr "cat"; VStr "dog"]).


(** A record with a confidence and a text but no ["label"] column, followed
    by a well-formed one. *)
Definition no_label_rows : list row :=
  [dict_reader_row ["text"; "confidence_score"] ["hello"; "0.9"];
   dict_reader_row header ["world"; "bob"; "neg"; "0.95"]].

(** The row [csv.DictReader] builds under a header without repeated names:
    the header names in order, each with its field, [None] past the end of a
    short row. *)
Fixpoint row_of_fields (fieldnames fields : list string) : row :=
  match fieldnames, fields with
  | [], _ => []
  | k :: ks, f :: fs => (k, VStr f) :: row_of_fields ks fs
  | k :: ks, [] => (k, VNone) :: row_of_fields ks []
  end.


(** A short data row, a record dropped by QC1, a record repeated from
    [sample_records], and a disagreement with a [None] label. *)
Definition sample_fields : list string := ["hello"; "alice"; "pos"].

Definition dropped_record : list string := ["w"; "a"; "neg"; "abc"].

Definition repeated_record : list string := ["x"; "b"; "dog"; "0.95"].

Definition none_label_disagreement : value * list value :=
  (VStr "q", [VStr "a"; VNone]).


Example sample_agree :
  q_run [["hello"; "alice"; "pos"; "0.9"]; ["hello"; "bob"; "pos"; "0.85"];
         ["world"; "carol"; "neg"; "0.5"]] (Qmake 8 10)
  = Ok (mk_outputs
          ("{" ++ String dq "text" ++ String dq ": " ++ String dq "hello"
            ++ String dq ", " ++ String dq "label" ++ String dq ": "
            ++ String dq "pos" ++ String dq "}" ++ nl)
          "" None).
Proof. reflexivity. Qed.

Example sample_disagree :
  q_run [["x"; "a"; "cat"; "0.9"]; ["x"; "b"; "dog"; "0.95"]] (Qmake 8 10)
  = Ok (mk_outputs "" ("TEXT: x | LABELS: cat, dog" ++ nl) None).
Proof. reflexivity. Qed.

Example sample_disagree_rev :
  run decimal_float q_ge (@rev value) header
    [["x"; "a"; "dog"; "0.9"]; ["x"; "b"; "cat"; "0.95"]; ["x"; "c"; "cat"; "0.95"]] (Qmake 8 10)
  = Ok (mk_outputs "" ("TEXT: x | LABELS: cat, dog" ++ nl) None).
Proof. reflexivity. Qed.

Example sample_boundary :
  q_run [["y"; "a"; "neg"; "0.8"]; ["z"; "a"; "neg"; "abc"]] (Qmake 8 10)
  = Ok (mk_outputs ("{" ++ String dq "text" ++ String dq ": " ++ String dq "y"
            ++ String dq ", " ++ String dq "label" ++ String dq ": "
            ++ String dq "neg" ++ String dq "}" ++ nl) "" None).
Proof. reflexivity. Qed.

Example sample_short_row :
  q_run [["hello"; "alice"; "pos"]] (Qmake 8 10) = Err TypeError.
Proof. reflexivity. Qed.

(** * Proofs *)

Close Scope string_scope.
Open Scope nat_scope.

Section Qc1Proofs.

Variable F : Type.
Variable py_float : string -> option F.
Variable py_ge : F -> F -> bool.

(** C1 (amended). When the confidence filter returns, it has produced an
    annotation for exactly those records, in input order, whose
    [confidence_score] key is present with a value that parses as a float
    [>= threshold] (inclusive), carrying that float; so every accepted
    annotation has [confidence_score >= threshold].  A record that passes the
    threshold but has no ["text"] or no ["label"] key makes the filter raise
    instead of returning, so no annotation is produced for any record: the
    exception is [KeyError "text"] or [KeyError "label"], or the [TypeError]
    of a record whose confidence value is [None]. *)
Theorem filter_by_confidence_accepted :
  forall rows threshold,
  (forall out,
     filter_by_confidence py_float py_ge rows threshold = Ok out ->
     out = accepted py_float py_ge threshold rows /\
     Forall (fun a => py_ge (confidence_score a) threshold = true) out) /\
  (forall r, In r rows ->
     qc1 py_float py_ge threshold r <> None ->
     dict_lookup "text" r = None \/ dict_lookup "label" r = None ->
     exists e,
     filter_by_confidence py_float py_ge rows threshold = Err e /\
     (e = KeyError "text" \/ e = KeyError "label" \/
      (e = TypeError /\
       exists r', In r' rows /\ dict_lookup "confidence_score" r' = Some VNone))).
Proof.
  intros rows threshold. split.
  { revert threshold.
    induction rows as [|r rs IH]; intros threshold out H; simpl in H.
    - injection H as <-. split; [reflexivity | constructor].
    - simpl. unfold qc1, getitem, to_float in *.
      destruct (dict_lookup "confidence_score" r) as [[s|]|]; try discriminate;
        [|now apply IH].
      destruct (py_float s) as [c|] eqn:Hc; [|now apply IH].
      destruct (py_ge c threshold) eqn:Hge; [|now apply IH].
      destruct (dict_lookup "text" r) as [t|] eqn:Ht; try discriminate.
      destruct (dict_lookup "label" r) as [l|] eqn:Hl; try discriminate.
      destruct (filter_by_confidence py_float py_ge rs threshold) as [out'|e]
        eqn:Hrs; try discriminate.
      injection H as <-.
      destruct (IH threshold out' Hrs) as [-> Hall].
      unfold get; rewrite Ht, Hl.
      split; [reflexivity | constructor; assumption]. }
  induction rows as [|r0 rs IH]; intros r Hin Hq Hmiss; [destruct Hin|].
  simpl. unfold getitem, to_float.
  assert (Hrest : In r rs ->
     exists e,
     filter_by_confidence py_float py_ge rs threshold = Err e /\
     (e = KeyError "text" \/ e = KeyError "label" \/
      (e = TypeError /\
       exists r', In r' (r0 :: rs) /\ dict_lookup "confidence_score" r' = Some VNone))).
  { intros Hr. destruct (IH r Hr Hq Hmiss) as [e [He Hk]]. exists e.
    split; [exact He|].
    destruct Hk as [Hk|[Hk|[Hk [r' [Hr' Hn]]]]]; auto.
    right; right. split; [exact Hk|]. exists r'. split; [right|]; assumption. }
  destruct Hin as [->|Hin].
  - unfold qc1 in Hq.
    destruct (dict_lookup "confidence_score" r) as [[s|]|]; try (now elim Hq).
    destruct (py_float s) as [c|]; [|now elim Hq].
    destruct (py_ge c threshold); [|now elim Hq].
    destruct Hmiss as [-> | Hl].
    + exists (KeyError "text"). auto.
    + destruct (dict_lookup "text" r); [rewrite Hl|]; eexists; split; auto.
  - destruct (dict_lookup "confidence_score" r0) as [[s|]|] eqn:Hc0.
    + destruct (py_float s) as [c|]; [|apply Hrest, Hin].
      destruct (py_ge c threshold); [|apply Hrest, Hin].
      destruct (dict_lookup "text" r0); [|eexists; split; auto].
      destruct (dict_lookup "label" r0); [|eexists; split; auto].
      destruct (Hrest Hin) as [e [He Hk]]. rewrite He. exists e. auto.
    + exists TypeError. split; [reflexivity|]. right; right. split; [reflexivity|].
      exists r0. split; [left; reflexivity | exact Hc0].
    + apply Hrest, Hin.
Qed.

(** C2 (amended). When no record has a [None] confidence value, the filter
    never raises for a record whose [confidence_score] key is absent, whose
    value does not parse as a float, or whose float is below the threshold: it
    drops it and goes on with the rest.  It raises [KeyError] on the first
    record that passes the threshold but lacks the ["text"] key or, failing
    that, the ["label"] key; otherwise it returns the accepted annotations. *)
Theorem filter_by_confidence_drops :
  forall rows threshold,
  (forall r, In r rows -> dict_lookup "confidence_score" r <> Some VNone) ->
  filter_by_confidence py_float py_ge rows threshold =
  match first_missing_key py_float py_ge threshold rows with
  | None => Ok (accepted py_float py_ge threshold rows)
  | Some k => Err (KeyError k)
  end.
Proof.
  induction rows as [|r rs IH]; intros threshold Hnone; [reflexivity|].
  assert (IH' := IH threshold (fun r' Hin => Hnone r' (or_intror Hin))).
  assert (Hr := Hnone r (or_introl eq_refl)).
  simpl. unfold qc1, getitem, to_float.
  destruct (dict_lookup "confidence_score" r) as [[s|]|]; [| now elim Hr | exact IH'].
  destruct (py_float s) as [c|]; [|exact IH'].
  destruct (py_ge c threshold); [|exact IH'].
  destruct (dict_lookup "text" r) as [t|] eqn:Ht; [|reflexivity].
  destruct (dict_lookup "label" r) as [l|] eqn:Hl; [|reflexivity].
  rewrite IH'. unfold get; rewrite Ht, Hl.
  destruct (first_missing_key py_float py_ge threshold rs); reflexivity.
Qed.

(** C3 (code bug).  A csv data row one field short, under the header
    [text,annotator_id,label,confidence_score], reaches the filter with
    [confidence_score = None]; [float(None)] raises [TypeError], which the
    [except (KeyError, ValueError)] does not catch, so the filter raises
    instead of dropping the record whose confidence is missing. *)
Theorem filter_by_confidence_short_row_raises :
  forall threshold,
  filter_by_confidence py_float py_ge
    short_rows threshold
  = Err TypeError.
Proof. reflexivity. Qed.

End Qc1Proofs.

(** C1 counterexample: a record whose confidence ["0.9"] passes the
    threshold 0.8 but which has no ["text"] key yields no annotation: the
    filter raises [KeyError "text"]. *)
Lemma filter_by_confidence_missing_text :
  qc1 decimal_float q_ge (Qmake 8 10)
    no_text_row <> None /\
  filter_by_confidence decimal_float q_ge
    [no_text_row] (Qmake 8 10)
  = Err (KeyError "text"%string) /\
  (forall out, filter_by_confidence decimal_float q_ge
    [no_text_row] (Qmake 8 10)
    <> Ok out).
Proof.
  split; [discriminate|]. split; [reflexivity|].
  intros out H; discriminate H.
Qed.

(** C2 counterexample: a record with a passing confidence but no ["label"]
    key is not dropped: the filter raises [KeyError "label"] and the
    well-formed record after it is never processed. *)
Lemma filter_by_confidence_missing_label :
  filter_by_confidence decimal_float q_ge no_label_rows (Qmake 8 10)
  = Err (KeyError "label"%string) /\
  filter_by_confidence decimal_float q_ge (tl no_label_rows) (Qmake 8 10) <> Ok [].
Proof. split; [reflexivity | discriminate]. Qed.

Lemma filter_by_confidence_accepted_witness :
  (exists out,
   filter_by_confidence decimal_float q_ge qc1_rows (Qmake 8 10) = Ok out /\
   out = accepted decimal_float q_ge (Qmake 8 10) qc1_rows /\
   Forall (fun a => q_ge (confidence_score a) (Qmake 8 10) = true) out) /\
  In no_text_row (qc1_rows ++ [no_text_row]) /\
  qc1 decimal_float q_ge (Qmake 8 10) no_text_row <> None /\
  (dict_lookup "text" no_text_row = None \/ dict_lookup "label" no_text_row = None) /\
  exists e,
  filter_by_confidence decimal_float q_ge (qc1_rows ++ [no_text_row]) (Qmake 8 10)
    = Err e /\
  (e = KeyError "text" \/ e = KeyError "label" \/
   (e = TypeError /\
    exists r', In r' (qc1_rows ++ [no_text_row]) /\
               dict_lookup "confidence_score" r' = Some VNone)).
Proof.
  assert (Hin : In no_text_row (qc1_rows ++ [no_text_row]))
    by (apply in_or_app; right; left; reflexivity).
  assert (Hq : qc1 decimal_float q_ge (Qmake 8 10) no_text_row <> None) by discriminate.
  assert (Hm : dict_lookup "text" no_text_row = None \/
               dict_lookup "label" no_text_row = None) by (left; reflexivity).
  split.
  - eexists. split; [reflexivity|].
    apply (proj1 (filter_by_confidence_accepted Q decimal_float q_ge qc1_rows
                    (Qmake 8 10))).
    reflexivity.
  - split; [exact Hin|]. split; [exact Hq|]. split; [exact Hm|].
    exact (proj2 (filter_by_confidence_accepted Q decimal_float q_ge
                    (qc1_rows ++ [no_text_row]) (Qmake 8 10)) no_text_row Hin Hq Hm).
Defined.

Lemma filter_by_confidence_drops_witness :
  (forall r, In r qc1_rows -> dict_lookup "confidence_score" r <> Some VNone) /\
  filter_by_confidence decimal_float q_ge qc1_rows (Qmake 8 10) =
  match first_missing_key decimal_float q_ge (Qmake 8 10) qc1_rows with
  | None => Ok (accepted decimal_float q_ge (Qmake 8 10) qc1_rows)
  | Some k => Err (KeyError k)
  end.
Proof.
  assert (H : forall r, In r qc1_rows ->
              dict_lookup "confidence_score" r <> Some VNone).
  { intros r Hin. simpl in Hin.
    repeat (destruct Hin as [<- | Hin]; [discriminate|]). destruct Hin. }
  split; [exact H|].
  apply (filter_by_confidence_drops Q decimal_float q_ge qc1_rows (Qmake 8 10) H).
Defined.

(** ** The grouper *)

Section GroupProofs.

Variable F : Type.

Lemma first_seen_from_In :
  forall l seen x, In x (first_seen_from seen l) <-> In x l /\ ~ In x seen.
Proof.
  induction l as [|y l IH]; intros seen x; simpl.
  - tauto.
  - destruct (in_dec value_eq_dec y seen) as [Hy|Hy].
    + rewrite IH. split; [tauto|].
      intros [[<- | Hx] Hn]; [contradiction | tauto].
    + simpl. rewrite IH. simpl.
      destruct (value_eq_dec y x) as [<-|Hne]; [tauto|].
      split; [intros [H | [H1 H2]]; [congruence | tauto]|].
      intros [[H | H] Hn]; [congruence | right; split; [assumption|]].
      intros [H' | H']; [congruence | contradiction].
Qed.

Lemma first_seen_from_NoDup :
  forall l seen, NoDup (first_seen_from seen l).
Proof.
  induction l as [|y l IH]; intros seen; simpl; [constructor|].
  destruct (in_dec value_eq_dec y seen); [apply IH|].
  constructor; [|apply IH].
  rewrite first_seen_from_In. simpl. tauto.
Qed.

Lemma first_seen_from_snoc_old :
  forall l seen x, In x seen \/ In x l ->
  first_seen_from seen (l ++ [x]) = first_seen_from seen l.
Proof.
  induction l as [|y l IH]; intros seen x Hx; simpl.
  - destruct Hx as [Hx|[]].
    destruct (in_dec value_eq_dec x seen); [reflexivity | contradiction].
  - destruct (in_dec value_eq_dec y seen) as [Hy|Hy].
    + apply IH. destruct Hx as [Hx|[<-|Hx]]; auto.
    + f_equal. apply IH. simpl. destruct Hx as [Hx|[<-|Hx]]; auto.
Qed.

Lemma first_seen_from_snoc_new :
  forall l seen x, ~ In x seen -> ~ In x l ->
  first_seen_from seen (l ++ [x]) = first_seen_from seen l ++ [x].
Proof.
  induction l as [|y l IH]; intros seen x Hs Hl; simpl.
  - destruct (in_dec value_eq_dec x seen); [contradiction | reflexivity].
  - destruct (in_dec value_eq_dec y seen) as [Hy|Hy].
    + apply IH; simpl in Hl; tauto.
    + simpl. f_equal. apply IH; simpl in *; [|tauto].
      intros [H|H]; [apply Hl; left; assumption | contradiction].
Qed.

Lemma group_insert_old :
  forall (f : value -> list (ann F)) k a ks,
  In k ks -> NoDup ks ->
  group_insert k a (map (fun t => (t, f t)) ks) =
  map (fun t => (t, if value_eq_dec t k then f t ++ [a] else f t)) ks.
Proof.
  intros f k a ks; induction ks as [|t ks IH]; intros Hin Hnd; [destruct Hin|].
  inversion Hnd as [|? ? Ht Hnd']; subst. simpl.
  destruct (value_eq_dec k t) as [<-|Hne].
  - destruct (value_eq_dec k k) as [_|]; [|congruence].
    f_equal. apply map_ext_in. intros t' Ht'.
    destruct (value_eq_dec t' k) as [->|]; [contradiction | reflexivity].
  - destruct (value_eq_dec t k) as [->|]; [congruence|].
    f_equal. apply IH; [destruct Hin; [congruence | assumption] | assumption].
Qed.

Lemma group_insert_new :
  forall (f : value -> list (ann F)) k a ks,
  ~ In k ks ->
  group_insert k a (map (fun t => (t, f t)) ks) =
  map (fun t => (t, f t)) ks ++ [(k, [a])].
Proof.
  intros f k a ks; induction ks as [|t ks IH]; intros Hin; [reflexivity|].
  simpl. destruct (value_eq_dec k t) as [<-|Hne].
  - elim Hin; left; reflexivity.
  - f_equal. apply IH. intros H; apply Hin; right; assumption.
Qed.

Lemma members_snoc :
  forall t (l : list (ann F)) a,
  members t (l ++ [a]) =
  if value_eq_dec (text a) t then members t l ++ [a] else members t l.
Proof.
  intros t l a. unfold members. rewrite filter_app. simpl.
  unfold value_eqb. destruct (value_eq_dec (text a) t); [reflexivity|].
  apply app_nil_r.
Qed.

Lemma members_nil :
  forall t (l : list (ann F)), ~ In t (map text l) -> members t l = [].
Proof.
  intros t l H. unfold members.
  induction l as [|a l IH]; [reflexivity|]. simpl in *.
  unfold value_eqb. destruct (value_eq_dec (text a) t) as [Heq|Hne].
  - elim H; left; assumption.
  - apply IH; tauto.
Qed.

(** [group_by_text] maps each distinct text, in order of first occurrence, to
    its annotations in input order. *)
Lemma group_by_text_eq :
  forall l : list (ann F),
  group_by_text l =
  map (fun t => (t, members t l)) (first_seen (map text l)).
Proof.
  induction l as [|a l IH] using rev_ind; [reflexivity|].
  unfold group_by_text in *. rewrite fold_left_app. simpl. rewrite IH.
  unfold first_seen. rewrite map_app. simpl.
  destruct (in_dec value_eq_dec (text a) (map text l)) as [Hin|Hnin].
  - rewrite first_seen_from_snoc_old by (right; assumption).
    rewrite group_insert_old.
    + apply map_ext. intros t. rewrite members_snoc.
      destruct (value_eq_dec t (text a));
        destruct (value_eq_dec (text a) t); congruence.
    + apply first_seen_from_In. split; [assumption | intros []].
    + apply first_seen_from_NoDup.
  - rewrite first_seen_from_snoc_new by (simpl; tauto).
    rewrite group_insert_new by (rewrite first_seen_from_In; tauto).
    rewrite map_app. simpl. f_equal.
    + apply map_ext_in. intros t Ht. rewrite members_snoc.
      destruct (value_eq_dec (text a) t) as [<-|]; [|reflexivity].
      apply first_seen_from_In in Ht. tauto.
    + rewrite members_snoc, members_nil by assumption.
      destruct (value_eq_dec (text a) (text a)); [reflexivity | congruence].
Qed.

Lemma group_insert_perm :
  forall k (a : ann F) g,
  Permutation (concat (map snd (group_insert k a g))) (concat (map snd g) ++ [a]).
Proof.
  induction g as [|[k' ms] g IH]; simpl; [reflexivity|].
  destruct (value_eq_dec k k'); simpl.
  - rewrite <- !app_assoc. apply Permutation_app_head.
    apply Permutation_app_comm.
  - rewrite <- app_assoc. apply Permutation_app_head. exact IH.
Qed.

Lemma group_by_text_perm :
  forall l : list (ann F), Permutation (concat (map snd (group_by_text l))) l.
Proof.
  induction l as [|a l IH] using rev_ind; [reflexivity|].
  unfold group_by_text in *. rewrite fold_left_app. simpl.
  rewrite group_insert_perm. apply Permutation_app_tail. exact IH.
Qed.

(** C6. The grouper partitions the accepted annotations by exact equality
    of their text: the keys are the distinct texts in order of first
    occurrence, with no key twice; the group of a key holds exactly the
    annotations with that text, in input order; and every annotation is in
    exactly one group (the groups together are a permutation of the input). *)
Theorem group_by_text_partition :
  forall anns : list (ann F),
  map fst (group_by_text anns) = first_seen (map text anns) /\
  NoDup (map fst (group_by_text anns)) /\
  (forall t ms, In (t, ms) (group_by_text anns) ->
     ms = filter (fun a => value_eqb (text a) t) anns) /\
  Permutation (concat (map snd (group_by_text anns))) anns.
Proof.
  intros anns. rewrite !group_by_text_eq, map_map. simpl.
  rewrite map_id. split; [reflexivity|]. split; [apply first_seen_from_NoDup|].
  split.
  - intros t ms Hin. apply in_map_iff in Hin as [t' [Heq _]].
    injection Heq as <- <-. reflexivity.
  - rewrite <- group_by_text_eq. apply group_by_text_perm.
Qed.

End GroupProofs.

(** ** The agreement resolver *)

Section ResolverProofs.

Variable F : Type.
Variable enum : list value -> list value.

Lemma dict_set_new :
  forall {K V : Type} (dec : forall x y : K, {x = y} + {x <> y}) k (v : V) d,
  ~ In k (map fst d) -> dict_set dec k v d = d ++ [(k, v)].
Proof.
  intros K V dec k v d; induction d as [|[k' v'] d IH]; intros Hk; [reflexivity|].
  simpl. destruct (dec k k') as [<-|]; [elim Hk; left; reflexivity|].
  f_equal. apply IH. intros H; apply Hk; right; exact H.
Qed.

Lemma map_fst_agreed :
  forall g : list (value * list (ann F)),
  map fst (map (agreed_entry enum) g) = map fst g.
Proof. intros g. rewrite map_map. reflexivity. Qed.

(** On a grouping without repeated keys, the resolver sends each group, in
    order, to the agreed samples when its label set has one element and to
    the disagreements otherwise. *)
Lemma apply_agreement_check_eq :
  forall g : list (value * list (ann F)),
  NoDup (map fst g) ->
  apply_agreement_check enum g =
  (map (agreed_entry enum) (filter (agrees enum) g),
   map (disagreement_entry enum) (filter (fun kv => negb (agrees enum kv)) g)).
Proof.
  induction g as [|[t ms] g IH] using rev_ind; intros Hnd; [reflexivity|].
  rewrite map_app in Hnd. simpl in Hnd.
  apply NoDup_remove in Hnd as [Hnd Hnin].
  rewrite app_nil_r in Hnd, Hnin.
  unfold apply_agreement_check in *. rewrite fold_left_app, IH by assumption.
  simpl. rewrite !filter_app, !map_app. simpl.
  change (Nat.eqb (length (label_set enum ms)) 1) with (agrees enum (t, ms)).
  destruct (agrees enum (t, ms)); simpl.
  - rewrite dict_set_new; [rewrite app_nil_r; reflexivity|].
    rewrite map_fst_agreed. intros Hin.
    apply Hnin.
    apply in_map_iff in Hin as [[t' ms'] [Heq Hin]]. simpl in Heq; subst t'.
    apply filter_In in Hin as [Hin _]. apply in_map_iff. exists (t, ms'); auto.
  - rewrite app_nil_r. reflexivity.
Qed.

Lemma group_by_text_NoDup :
  forall anns : list (ann F), NoDup (map fst (group_by_text anns)).
Proof.
  intros anns. rewrite group_by_text_eq, map_map. simpl. rewrite map_id.
  apply first_seen_from_NoDup.
Qed.

Lemma count_occ_filter_split :
  forall (p : value * list (ann F) -> bool) g t,
  count_occ value_eq_dec (map fst (filter p g)) t
  + count_occ value_eq_dec (map fst (filter (fun kv => negb (p kv)) g)) t
  = count_occ value_eq_dec (map fst g) t.
Proof.
  intros p g t; induction g as [|[k ms] g IH]; [reflexivity|]. simpl.
  destruct (p (k, ms)); simpl; destruct (value_eq_dec k t); lia.
Qed.

(** C4. Every distinct text with at least one accepted annotation is the
    key of exactly one entry among the agreed samples and the
    disagreements together: never in both, never in neither. *)
Theorem agreement_check_exactly_once :
  forall (anns : list (ann F)) t,
  In t (map text anns) ->
  count_occ value_eq_dec
    (map fst (fst (apply_agreement_check enum (group_by_text anns)))) t
  + count_occ value_eq_dec
    (map fst (snd (apply_agreement_check enum (group_by_text anns)))) t
  = 1.
Proof.
  intros anns t Hin.
  rewrite apply_agreement_check_eq by apply group_by_text_NoDup. simpl.
  rewrite map_fst_agreed.
  replace (map fst (map (disagreement_entry enum) _))
    with (map fst (filter (fun kv => negb (agrees enum kv)) (group_by_text anns)))
    by (rewrite map_map; reflexivity).
  rewrite count_occ_filter_split.
  apply (NoDup_count_occ' value_eq_dec); [apply group_by_text_NoDup|].
  rewrite group_by_text_eq, map_map. simpl. rewrite map_id.
  apply first_seen_from_In. split; [exact Hin | intros []].
Qed.

Lemma group_by_text_nonempty :
  forall (anns : list (ann F)) t ms,
  In (t, ms) (group_by_text anns) -> ms <> [].
Proof.
  intros anns t ms Hin. rewrite group_by_text_eq in Hin.
  apply in_map_iff in Hin as [t' [Heq Hin]]. injection Heq as <- <-.
  apply first_seen_from_In in Hin as [Hin _].
  apply in_map_iff in Hin as [a [Ht Ha]].
  intros Hnil. assert (Hm : In a (members t' anns)).
  { apply filter_In. split; [exact Ha|]. unfold value_eqb.
    destruct (value_eq_dec (text a) t'); congruence. }
  rewrite Hnil in Hm. destruct Hm.
Qed.

Lemma distinct_labels_nonempty :
  forall ms : list (ann F), ms <> [] -> 1 <= length (distinct_labels ms).
Proof.
  intros [|a ms] H; [congruence|].
  destruct (distinct_labels (a :: ms)) eqn:Hd; simpl; [|lia].
  assert (Hin : In (label a) (distinct_labels (a :: ms))).
  { apply nodup_In. left; reflexivity. }
  rewrite Hd in Hin. destruct Hin.
Qed.

Section EnumPermutation.

Hypothesis enum_perm : forall l, Permutation (enum l) l.

Lemma label_set_length :
  forall ms : list (ann F),
  length (label_set enum ms) = length (distinct_labels ms).
Proof. intros ms. apply Permutation_length, enum_perm. Qed.

Lemma label_set_single :
  forall (ms : list (ann F)) l,
  distinct_labels ms = [l] -> label_set enum ms = [l].
Proof.
  intros ms l Hd. unfold label_set. fold (distinct_labels ms). rewrite Hd.
  apply Permutation_length_1_inv. symmetry. rewrite <- Hd. apply enum_perm.
Qed.

Lemma agrees_single :
  forall (t : value) (ms : list (ann F)),
  agrees enum (t, ms) = true <-> exists l, distinct_labels ms = [l].
Proof.
  intros t ms. unfold agrees. simpl. rewrite Nat.eqb_eq, label_set_length.
  split.
  - destruct (distinct_labels ms) as [|l [|]]; simpl; try discriminate.
    intros _. exists l; reflexivity.
  - intros [l ->]. reflexivity.
Qed.

End EnumPermutation.

(** C5. With [enum] listing each label set in some order: a group yields an
    agreed sample exactly when its set of distinct labels has one element,
    and the sample carries that label (so a group of one annotation always
    agrees); it yields a disagreement exactly when the set has two or more
    elements, and the disagreement carries the whole set; so every
    disagreement has at least two labels. *)
Theorem agreement_check_label_sets :
  (forall l, Permutation (enum l) l) ->
  forall anns : list (ann F),
  let g := group_by_text anns in
  let R := apply_agreement_check enum g in
  (forall t l, In (t, l) (fst R) <->
     exists ms, In (t, ms) g /\ distinct_labels ms = [l]) /\
  (forall t ls, In (t, ls) (snd R) ->
     exists ms, In (t, ms) g /\ 2 <= length (distinct_labels ms) /\
                Permutation ls (distinct_labels ms)) /\
  (forall t ms, In (t, ms) g -> 2 <= length (distinct_labels ms) ->
     exists ls, In (t, ls) (snd R)) /\
  (forall t a, In (t, [a]) g -> In (t, label a) (fst R)) /\
  (forall t ls, In (t, ls) (snd R) -> 2 <= length ls).
Proof.
  intros Henum anns g R.
  assert (HR : R = (map (agreed_entry enum) (filter (agrees enum) g),
                    map (disagreement_entry enum)
                      (filter (fun kv => negb (agrees enum kv)) g)))
    by (apply apply_agreement_check_eq, group_by_text_NoDup).
  assert (Hagreed : forall t l, In (t, l) (fst R) <->
            exists ms, In (t, ms) g /\ distinct_labels ms = [l]).
  { intros t l. rewrite HR. simpl. rewrite in_map_iff. split.
    - intros [[t' ms] [Heq Hin]]. apply filter_In in Hin as [Hin Ha].
      apply (agrees_single Henum) in Ha as [l' Hd].
      unfold agreed_entry in Heq. simpl in Heq.
      rewrite (label_set_single Henum _ _ Hd) in Heq. injection Heq as <- <-.
      exists ms; auto.
    - intros [ms [Hin Hd]]. exists (t, ms). unfold agreed_entry. simpl.
      rewrite (label_set_single Henum _ _ Hd). split; [reflexivity|].
      apply filter_In. split; [exact Hin|]. apply (agrees_single Henum).
      exists l; exact Hd. }
  assert (Hdis : forall t ls, In (t, ls) (snd R) ->
            exists ms, In (t, ms) g /\ 2 <= length (distinct_labels ms) /\
                       Permutation ls (distinct_labels ms)).
  { intros t ls. rewrite HR. simpl. rewrite in_map_iff.
    intros [[t' ms] [Heq Hin]]. apply filter_In in Hin as [Hin Ha].
    unfold disagreement_entry in Heq. simpl in Heq.
    injection Heq as Ht Hls. subst t' ls.
    exists ms. split; [exact Hin|]. split.
    - unfold agrees in Ha. simpl in Ha. rewrite label_set_length in Ha by exact Henum.
      apply Bool.negb_true_iff, Nat.eqb_neq in Ha.
      assert (H1 := distinct_labels_nonempty ms
                      (group_by_text_nonempty anns t ms Hin)). lia.
    - apply Henum. }
  split; [exact Hagreed|]. split; [exact Hdis|]. split; [|split].
  - intros t ms Hin H2. exists (label_set enum ms). rewrite HR. simpl.
    apply in_map_iff. exists (t, ms). split; [reflexivity|].
    apply filter_In. split; [exact Hin|].
    unfold agrees. simpl. rewrite label_set_length by exact Henum.
    apply Bool.negb_true_iff, Nat.eqb_neq. lia.
  - intros t a Hin. apply Hagreed. exists [a]. split; [exact Hin | reflexivity].
  - intros t ls Hin. destruct (Hdis t ls Hin) as [ms [_ [H2 Hp]]].
    rewrite (Permutation_length Hp). exact H2.
Qed.

End ResolverProofs.

(** ** Strings *)

Lemma str_app_assoc :
  forall a b c : string, ((a ++ b) ++ c)%string = (a ++ (b ++ c))%string.
Proof. induction a as [|x a IH]; intros b c; simpl; [|rewrite IH]; reflexivity. Qed.

Lemma str_app_nil_r : forall a : string, (a ++ "")%string = a.
Proof. induction a as [|x a IH]; simpl; [|rewrite IH]; reflexivity. Qed.

Lemma str_length_app :
  forall a b : string, String.length (a ++ b) = String.length a + String.length b.
Proof. induction a as [|x a IH]; intros b; simpl; [|rewrite IH]; reflexivity. Qed.

Lemma count_nl_app :
  forall a b : string, count_nl (a ++ b) = count_nl a + count_nl b.
Proof.
  induction a as [|x a IH]; intros b; simpl; [reflexivity|].
  destruct (ascii_dec x "010"); rewrite IH; reflexivity.
Qed.

Lemma strip_prefix_app :
  forall p s : string, strip_prefix p (p ++ s) = Some s.
Proof.
  induction p as [|c p IH]; intros s; simpl; [reflexivity|].
  destruct (ascii_dec c c); [apply IH | congruence].
Qed.

Lemma split_nl_app :
  forall x rest : string,
  count_nl x = 0 -> split_nl (x ++ String "010" rest) = (x, Some rest).
Proof.
  induction x as [|c x IH]; intros rest Hx; simpl in *; [reflexivity|].
  destruct (ascii_dec c "010"); [discriminate|]. rewrite IH by exact Hx.
  reflexivity.
Qed.

(** ** JSON records *)

(** Destructs an [ascii] into its 256 values. *)
Ltac ascii_cases c :=
  destruct c as [b0 b1 b2 b3 b4 b5 b6 b7];
  destruct b0, b1, b2, b3, b4, b5, b6, b7.

Lemma json_unescape_escape_char :
  forall c r, json_unescape (json_escape_char c ++ r) = cons_result c (json_unescape r).
Proof. intros c r. ascii_cases c; reflexivity. Qed.

Lemma count_nl_escape_char : forall c, count_nl (json_escape_char c) = 0.
Proof. intros c. ascii_cases c; reflexivity. Qed.

Lemma json_unescape_escape :
  forall s rest, json_unescape (json_escape s ++ String dq rest) = Some (s, rest).
Proof.
  induction s as [|c s IH]; intros rest; [reflexivity|].
  simpl. rewrite str_app_assoc, json_unescape_escape_char, IH. reflexivity.
Qed.

Lemma count_nl_escape : forall s, count_nl (json_escape s) = 0.
Proof.
  induction s as [|c s IH]; [reflexivity|].
  simpl. rewrite count_nl_app, count_nl_escape_char, IH. reflexivity.
Qed.

Lemma json_decode_value_app :
  forall v rest, json_decode_value (json_value v ++ rest) = Some (v, rest).
Proof.
  intros [s|] rest; [|reflexivity].
  unfold json_decode_value. simpl.
  rewrite str_app_assoc. simpl. rewrite json_unescape_escape. reflexivity.
Qed.

Lemma count_nl_json_value : forall v, count_nl (json_value v) = 0.
Proof.
  intros [s|]; [|reflexivity]. simpl.
  rewrite count_nl_app, count_nl_escape. reflexivity.
Qed.

Lemma json_record_split :
  forall t l,
  json_record t l =
  (("{" ++ json_value (VStr "text") ++ ": ") ++ json_value t ++
   ((", " ++ json_value (VStr "label") ++ ": ") ++ json_value l ++ "}"))%string.
Proof. intros t l. unfold json_record. rewrite !str_app_assoc. reflexivity. Qed.

Lemma json_decode_record_json :
  forall t l, json_decode_record (json_record t l) = Some (t, l).
Proof.
  intros t l. unfold json_decode_record. rewrite json_record_split.
  rewrite strip_prefix_app, json_decode_value_app, strip_prefix_app,
    json_decode_value_app.
  reflexivity.
Qed.

Lemma count_nl_json_record : forall t l, count_nl (json_record t l) = 0.
Proof.
  intros t l. unfold json_record.
  rewrite !count_nl_app, !count_nl_json_value. reflexivity.
Qed.

Lemma lines_fuel_cons :
  forall n x rest,
  count_nl x = 0 ->
  lines_fuel (S n) (x ++ String "010" rest) = x :: lines_fuel n rest.
Proof.
  intros n x rest Hx.
  assert (Hs := split_nl_app x rest Hx).
  destruct x as [|c x]; [reflexivity|].
  change ((String c x ++ String "010" rest)%string)
    with (String c (x ++ String "010" rest)).
  cbn [lines_fuel].
  change (String c (x ++ String "010" rest))
    with ((String c x) ++ String "010" rest)%string.
  rewrite Hs. reflexivity.
Qed.

Lemma lines_fuel_write_clean :
  forall agreed n,
  String.length (write_clean agreed) <= n ->
  lines_fuel n (write_clean agreed) =
  map (fun p => json_record (fst p) (snd p)) agreed.
Proof.
  induction agreed as [|[t l] agreed IH]; intros n Hn.
  - destruct n; reflexivity.
  - cbn [write_clean] in Hn |- *. rewrite str_length_app in Hn.
    destruct n as [|n]; [unfold json_record in Hn; simpl in Hn; lia|].
    change ((nl ++ write_clean agreed)%string)
      with (String "010" (write_clean agreed)).
    rewrite lines_fuel_cons by apply count_nl_json_record.
    cbn [map fst snd]. f_equal. apply IH. simpl in Hn. lia.
Qed.

(** C8. The clean dataset has one line per agreed sample, in the order of
    the agreed samples, none left out and none repeated; each line is a
    self-contained JSON object holding exactly the fields ["text"] and
    ["label"], from which the sample is read back. *)
Theorem write_outputs_clean_records :
  forall agreed_samples disagreements,
  lines (clean_file (write_outputs agreed_samples disagreements)) =
    map (fun p => json_record (fst p) (snd p)) agreed_samples /\
  map json_decode_record
    (lines (clean_file (write_outputs agreed_samples disagreements)))
  = map Some agreed_samples.
Proof.
  intros a d.
  assert (Hc : clean_file (write_outputs a d) = write_clean a)
    by (unfold write_outputs; destruct (write_report d); reflexivity).
  rewrite Hc. unfold lines. rewrite lines_fuel_write_clean by lia.
  split; [reflexivity|]. rewrite map_map. apply map_ext.
  intros [t l]. apply json_decode_record_json.
Qed.

(** ** Sorting labels *)

Lemma nat_of_ascii_inj : forall c d, nat_of_ascii c = nat_of_ascii d -> c = d.
Proof.
  intros c d H.
  rewrite <- (ascii_nat_embedding c), <- (ascii_nat_embedding d), H.
  reflexivity.
Qed.

Lemma str_ltb_irrefl : forall a, str_ltb a a = false.
Proof.
  induction a as [|x a IH]; simpl; [reflexivity|].
  rewrite Nat.ltb_irrefl, Nat.eqb_refl. exact IH.
Qed.

(** Case analysis on the comparisons of character codes in a goal. *)
Ltac code_cases :=
  repeat match goal with
  | |- context [Nat.ltb ?x ?y] =>
      destruct (Nat.ltb_spec x y)
  | H : context [Nat.ltb ?x ?y] |- _ =>
      destruct (Nat.ltb_spec x y)
  | |- context [Nat.eqb ?x ?y] =>
      destruct (Nat.eqb_spec x y)
  | H : context [Nat.eqb ?x ?y] |- _ =>
      destruct (Nat.eqb_spec x y)
  end.

Lemma str_ltb_trans :
  forall a b c, str_ltb a b = true -> str_ltb b c = true -> str_ltb a c = true.
Proof.
  induction a as [|x a IH]; intros [|y b] [|z c]; simpl; try discriminate;
    [reflexivity|].
  intros H1 H2. code_cases; try discriminate; try lia; try reflexivity.
  eapply IH; eassumption.
Qed.

Lemma str_ltb_total :
  forall a b, a = b \/ str_ltb a b = true \/ str_ltb b a = true.
Proof.
  induction a as [|x a IH]; intros [|y b]; simpl; auto.
  code_cases; auto; try lia.
  apply nat_of_ascii_inj in e. subst y.
  destruct (IH b) as [-> | [Hab | Hab]]; auto.
Qed.

Lemma str_ltb_asym : forall a b, str_ltb a b = true -> str_ltb b a = false.
Proof.
  intros a b H. destruct (str_ltb b a) eqn:H'; [|reflexivity].
  rewrite <- (str_ltb_irrefl a). symmetry. eapply str_ltb_trans; eassumption.
Qed.

Definition str_le (a b : string) : Prop := str_leb a b = true.

Lemma str_le_total : forall a b, str_le a b \/ str_le b a.
Proof.
  intros a b. unfold str_le, str_leb.
  destruct (str_ltb_total a b) as [-> | [H | H]].
  - rewrite str_ltb_irrefl. auto.
  - rewrite (str_ltb_asym _ _ H). auto.
  - rewrite (str_ltb_asym _ _ H). auto.
Qed.

Lemma str_le_trans : forall a b c, str_le a b -> str_le b c -> str_le a c.
Proof.
  unfold str_le, str_leb. intros a b c H1 H2.
  apply negb_true_iff in H1, H2. apply negb_true_iff.
  destruct (str_ltb c a) eqn:H; [|reflexivity].
  destruct (str_ltb_total a b) as [-> | [H3 | H3]]; try congruence.
  rewrite (str_ltb_trans _ _ _ H H3) in H2. discriminate.
Qed.

Lemma str_le_antisym : forall a b, str_le a b -> str_le b a -> a = b.
Proof.
  unfold str_le, str_leb. intros a b H1 H2.
  apply negb_true_iff in H1, H2.
  destruct (str_ltb_total a b) as [-> | [H | H]]; congruence.
Qed.

Lemma insert_sorted_perm :
  forall x l, Permutation (insert_sorted x l) (x :: l).
Proof.
  intros x; induction l as [|y l IH]; simpl; [reflexivity|].
  destruct (str_leb x y); [reflexivity|].
  rewrite IH. apply perm_swap.
Qed.

Lemma sort_strs_perm : forall l, Permutation (sort_strs l) l.
Proof.
  induction l as [|x l IH]; simpl; [reflexivity|].
  rewrite insert_sorted_perm, IH. reflexivity.
Qed.

Lemma insert_sorted_HdRel :
  forall z x l, HdRel str_le z l -> str_le z x -> HdRel str_le z (insert_sorted x l).
Proof.
  intros z x [|y l] H Hzx; simpl; [constructor; exact Hzx|].
  destruct (str_leb x y); constructor; [exact Hzx|].
  inversion H; assumption.
Qed.

Lemma insert_sorted_Sorted :
  forall x l, Sorted str_le l -> Sorted str_le (insert_sorted x l).
Proof.
  intros x; induction l as [|y l IH]; intros Hs; simpl.
  - repeat constructor.
  - destruct (str_leb x y) eqn:Hxy.
    + constructor; [exact Hs | constructor; exact Hxy].
    + inversion Hs as [|? ? Hl Hy]; subst.
      constructor; [apply IH; exact Hl|].
      apply insert_sorted_HdRel; [exact Hy|].
      destruct (str_le_total x y) as [H|H]; [unfold str_le in H; congruence | exact H].
Qed.

Lemma sort_strs_Sorted : forall l, Sorted str_le (sort_strs l).
Proof.
  induction l as [|x l IH]; simpl; [constructor|].
  apply insert_sorted_Sorted, IH.
Qed.

Lemma sorted_perm_unique :
  forall l1 l2, StronglySorted str_le l1 -> StronglySorted str_le l2 ->
  Permutation l1 l2 -> l1 = l2.
Proof.
  induction l1 as [|a l1 IH]; intros l2 S1 S2 P.
  - symmetry. apply Permutation_nil, P.
  - destruct l2 as [|b l2].
    + apply Permutation_length in P. discriminate.
    + apply StronglySorted_inv in S1 as [S1 F1].
      apply StronglySorted_inv in S2 as [S2 F2].
      assert (Hab : a = b).
      { assert (Ha : In a (b :: l2)) by (apply (Permutation_in _ P); left; reflexivity).
        assert (Hb : In b (a :: l1))
          by (apply (Permutation_in _ (Permutation_sym P)); left; reflexivity).
        destruct Ha as [-> | Ha]; [reflexivity|].
        destruct Hb as [-> | Hb]; [reflexivity|].
        apply str_le_antisym.
        - rewrite Forall_forall in F1. apply F1, Hb.
        - rewrite Forall_forall in F2. apply F2, Ha. }
      subst b. f_equal. apply IH; [exact S1 | exact S2|].
      apply Permutation_cons_inv in P. exact P.
Qed.

Lemma sort_strs_perm_eq :
  forall l1 l2, Permutation l1 l2 -> sort_strs l1 = sort_strs l2.
Proof.
  intros l1 l2 P. apply sorted_perm_unique.
  - apply Sorted_StronglySorted; [exact str_le_trans | apply sort_strs_Sorted].
  - apply Sorted_StronglySorted; [exact str_le_trans | apply sort_strs_Sorted].
  - rewrite !sort_strs_perm. exact P.
Qed.

Lemma forallb_perm :
  forall (p : value -> bool) l1 l2, Permutation l1 l2 -> forallb p l1 = forallb p l2.
Proof.
  intros p l1 l2 P.
  destruct (forallb p l1) eqn:H1; destruct (forallb p l2) eqn:H2; try reflexivity.
  - rewrite forallb_forall in H1.
    assert (H : forallb p l2 = true).
    { apply forallb_forall. intros x Hx. apply H1.
      apply (Permutation_in _ (Permutation_sym P)), Hx. }
    congruence.
  - rewrite forallb_forall in H2.
    assert (H : forallb p l1 = true).
    { apply forallb_forall. intros x Hx. apply H2. apply (Permutation_in _ P), Hx. }
    congruence.
Qed.

(** [", ".join(sorted(labels))] does not depend on the iteration order of
    the set [labels]. *)
Lemma label_list_perm :
  forall l1 l2, Permutation l1 l2 -> label_list l1 = label_list l2.
Proof.
  intros l1 l2 P. unfold label_list. rewrite (forallb_perm _ _ _ P).
  destruct (forallb is_str l2); [|reflexivity].
  rewrite (sort_strs_perm_eq (map py_str l1) (map py_str l2)); [reflexivity|].
  apply Permutation_map, P.
Qed.

(** ** The disagreement report *)

Lemma count_nl_join :
  forall l, Forall (fun s => count_nl s = 0) l -> count_nl (join ", " l) = 0.
Proof.
  induction l as [|x [|y l] IH]; intros H; [reflexivity| |].
  - inversion H; assumption.
  - inversion H as [|? ? Hx Hl]; subst.
    change (join ", " (x :: y :: l)) with (x ++ (", " ++ join ", " (y :: l)))%string.
    rewrite !count_nl_app, Hx, (IH Hl). reflexivity.
Qed.

Lemma report_line_ok :
  forall t labels, forallb is_str labels = true ->
  report_line t labels = Ok (report_entry t labels).
Proof.
  intros t labels H. unfold report_line, label_list. rewrite H. reflexivity.
Qed.

(** C7 (amended).  For disagreements whose labels are all [str], the report
    is, in order, one entry per disagreement, each exactly
    [TEXT: <text> | LABELS: <labels>] and a newline, where [<labels>] are the
    labels sorted lexicographically and joined by [", "]; the entry is a single
    line when the text and the labels hold no newline. *)
Theorem write_report_entries :
  forall disagreements : list (value * list value),
  Forall (fun d => forallb is_str (snd d) = true) disagreements ->
  write_report disagreements =
    (concat_strings (map (fun d => report_entry (fst d) (snd d)) disagreements),
     None) /\
  Forall (fun d =>
    report_entry (fst d) (snd d) =
      ("TEXT: " ++ py_str (fst d) ++ " | LABELS: "
         ++ join ", " (sort_strs (map py_str (snd d))) ++ nl)%string /\
    Sorted str_le (sort_strs (map py_str (snd d))) /\
    Permutation (sort_strs (map py_str (snd d))) (map py_str (snd d)) /\
    (count_nl (py_str (fst d)) = 0 ->
     Forall (fun l => count_nl (py_str l) = 0) (snd d) ->
     count_nl (report_entry (fst d) (snd d)) = 1)) disagreements.
Proof.
  intros ds Hs. split.
  - induction ds as [|[t ls] ds IH]; [reflexivity|].
    inversion Hs as [|? ? Ht Hds]; subst. simpl in Ht |- *.
    rewrite report_line_ok by exact Ht. rewrite (IH Hds). reflexivity.
  - apply Forall_forall. intros [t ls] _. cbn [fst snd].
    split; [reflexivity|]. split; [apply sort_strs_Sorted|].
    split; [apply sort_strs_perm|].
    intros Ht Hls. unfold report_entry.
    rewrite !count_nl_app, Ht, count_nl_join; [reflexivity|].
    apply Forall_forall. intros s Hin.
    apply (Permutation_in _ (sort_strs_perm _)), in_map_iff in Hin as [l [<- Hl]].
    rewrite Forall_forall in Hls. apply Hls, Hl.
Qed.

Lemma write_report_prefix :
  forall ds : list (value * list value),
  exists k,
  Forall (fun d => forallb is_str (snd d) = true) (firstn k ds) /\
  fst (write_report ds) =
    concat_strings (map (fun d => report_entry (fst d) (snd d)) (firstn k ds)) /\
  (snd (write_report ds) = None -> k = length ds).
Proof.
  induction ds as [|[t ls] ds IH].
  - exists 0. simpl. auto.
  - simpl. destruct (forallb is_str ls) eqn:Hls.
    + rewrite report_line_ok by exact Hls.
      destruct IH as [k [Hk [Hs He]]].
      destruct (write_report ds) as [s e]. simpl in *.
      exists (S k). simpl. split; [constructor; assumption|].
      split; [rewrite Hs; reflexivity|]. intros H; rewrite (He H); reflexivity.
    + unfold report_line, label_list. rewrite Hls.
      exists 0. simpl. split; [constructor|]. split; [reflexivity|].
      discriminate.
Qed.

(** ** The whole pipeline *)

Section PipelineProofs.

Variable F : Type.
Variable py_float : string -> option F.
Variable py_ge : F -> F -> bool.

Lemma agrees_perm :
  forall enum1 enum2,
  (forall l, Permutation (enum1 l) l) -> (forall l, Permutation (enum2 l) l) ->
  forall kv : value * list (ann F), agrees enum1 kv = agrees enum2 kv.
Proof.
  intros enum1 enum2 H1 H2 kv. unfold agrees.
  rewrite (label_set_length _ enum1 H1), (label_set_length _ enum2 H2).
  reflexivity.
Qed.

Lemma write_report_disagreements_perm :
  forall enum1 enum2,
  (forall l, Permutation (enum1 l) l) -> (forall l, Permutation (enum2 l) l) ->
  forall L : list (value * list (ann F)),
  write_report (map (disagreement_entry enum1) L) =
  write_report (map (disagreement_entry enum2) L).
Proof.
  intros enum1 enum2 H1 H2 L.
  induction L as [|[t ms] L IH]; [reflexivity|]. simpl.
  unfold report_line.
  rewrite (label_list_perm (label_set enum1 ms) (label_set enum2 ms)).
  - rewrite IH. reflexivity.
  - unfold label_set. rewrite H1, H2. reflexivity.
Qed.

(** The resolver's outputs differ, between two iteration orders of the
    label sets, only in the order of the labels of each disagreement, which
    the report sorts away. *)
Lemma apply_agreement_check_perm :
  forall enum1 enum2,
  (forall l, Permutation (enum1 l) l) -> (forall l, Permutation (enum2 l) l) ->
  forall g : list (value * list (ann F)),
  NoDup (map fst g) ->
  fst (apply_agreement_check enum1 g) = fst (apply_agreement_check enum2 g) /\
  write_report (snd (apply_agreement_check enum1 g)) =
  write_report (snd (apply_agreement_check enum2 g)).
Proof.
  intros enum1 enum2 H1 H2 g Hnd.
  rewrite !apply_agreement_check_eq by exact Hnd. simpl.
  rewrite (filter_ext (agrees enum1) (agrees enum2))
    by (apply agrees_perm; assumption).
  rewrite (filter_ext (fun kv => negb (agrees enum1 kv))
                      (fun kv => negb (agrees enum2 kv)))
    by (intros kv; rewrite (agrees_perm enum1 enum2 H1 H2 kv); reflexivity).
  split; [|apply write_report_disagreements_perm; assumption].
  apply map_ext_in. intros [t ms] Hin. apply filter_In in Hin as [_ Ha].
  apply (agrees_single _ enum2 H2) in Ha as [l Hd].
  unfold agreed_entry. simpl.
  rewrite (label_set_single _ enum1 H1 ms l Hd), (label_set_single _ enum2 H2 ms l Hd).
  reflexivity.
Qed.

(** C9. The pipeline is deterministic: its outputs do not depend on the
    iteration order of Python's label sets (which follows the per-process
    string hash seed).  Two runs on the same rows and threshold write the same
    clean dataset and the same disagreement report, and end the same way. *)
Theorem run_deterministic :
  forall enum1 enum2,
  (forall l, Permutation (enum1 l) l) -> (forall l, Permutation (enum2 l) l) ->
  forall fieldnames records threshold,
  run py_float py_ge enum1 fieldnames records threshold =
  run py_float py_ge enum2 fieldnames records threshold.
Proof.
  intros enum1 enum2 H1 H2 fieldnames records threshold. unfold run.
  destruct (filter_by_confidence py_float py_ge
              (read_raw_annotations fieldnames records) threshold) as [hc|e];
    [|reflexivity].
  destruct (apply_agreement_check_perm enum1 enum2 H1 H2 (group_by_text hc)
              (group_by_text_NoDup _ hc)) as [HA HD].
  destruct (apply_agreement_check enum1 (group_by_text hc)) as [A1 D1].
  destruct (apply_agreement_check enum2 (group_by_text hc)) as [A2 D2].
  simpl in HA, HD. subst A2. unfold write_outputs. rewrite HD. reflexivity.
Qed.

Lemma filter_map_comm :
  forall {A B : Type} (p : B -> bool) (f : A -> B) l,
  filter p (map f l) = map f (filter (fun x => p (f x)) l).
Proof.
  intros A B p f l; induction l as [|x l IH]; simpl; [reflexivity|].
  destruct (p (f x)); simpl; rewrite IH; reflexivity.
Qed.

Lemma apply_agreement_check_in_order :
  forall enum (hc : list (ann F)),
  apply_agreement_check enum (group_by_text hc) =
  (agreed_in_order enum hc, disagreements_in_order enum hc).
Proof.
  intros enum hc.
  rewrite apply_agreement_check_eq by apply group_by_text_NoDup.
  rewrite group_by_text_eq, !filter_map_comm, !map_map. reflexivity.
Qed.

(** C10. The clean dataset lists the agreed texts, and the disagreement
    report the disagreeing texts, in the order in which each text first
    occurs among the accepted annotations (the report stopping early only
    when writing an entry raises). *)
Theorem run_first_seen_order :
  forall enum fieldnames records threshold o,
  run py_float py_ge enum fieldnames records threshold = Ok o ->
  exists hc,
  filter_by_confidence py_float py_ge
    (read_raw_annotations fieldnames records) threshold = Ok hc /\
  lines (clean_file o) =
    map (fun p => json_record (fst p) (snd p)) (agreed_in_order enum hc) /\
  exists k,
  disagreements_file o =
    concat_strings (map (fun d => report_entry (fst d) (snd d))
                      (firstn k (disagreements_in_order enum hc))) /\
  (write_error o = None -> k = length (disagreements_in_order enum hc)).
Proof.
  intros enum fieldnames records threshold o Hrun. unfold run in Hrun.
  destruct (filter_by_confidence py_float py_ge
              (read_raw_annotations fieldnames records) threshold) as [hc|e];
    [|discriminate].
  exists hc. split; [reflexivity|].
  rewrite apply_agreement_check_in_order in Hrun.
  injection Hrun as <-. unfold write_outputs.
  destruct (write_report_prefix (disagreements_in_order enum hc)) as [k [_ [Hs He]]].
  destruct (write_report (disagreements_in_order enum hc)) as [rep e]. simpl in *.
  split.
  - unfold lines. apply lines_fuel_write_clean. lia.
  - exists k. split; assumption.
Qed.

End PipelineProofs.

(** ** Witnesses and counterexamples on concrete inputs *)

Lemma rev_perm : forall l : list value, Permutation (rev l) l.
Proof. intros l. apply Permutation_sym, Permutation_rev. Qed.

Lemma id_perm : forall l : list value, Permutation ((fun l => l) l) l.
Proof. intros l. reflexivity. Qed.

Lemma agreement_check_exactly_once_witness :
  In (VStr "x") (map text sample_anns) /\
  count_occ value_eq_dec
    (map fst (fst (apply_agreement_check (@rev value) (group_by_text sample_anns))))
    (VStr "x")
  + count_occ value_eq_dec
    (map fst (snd (apply_agreement_check (@rev value) (group_by_text sample_anns))))
    (VStr "x")
  = 1.
Proof.
  assert (H : In (VStr "x") (map text sample_anns)) by (simpl; auto).
  split; [exact H|].
  apply (agreement_check_exactly_once Q (@rev value) sample_anns (VStr "x") H).
Defined.

Lemma agreement_check_label_sets_witness :
  (forall l : list value, Permutation (rev l) l) /\
  let g := group_by_text sample_anns in
  let R := apply_agreement_check (@rev value) g in
  (forall t l, In (t, l) (fst R) <->
     exists ms, In (t, ms) g /\ distinct_labels ms = [l]) /\
  (forall t ls, In (t, ls) (snd R) ->
     exists ms, In (t, ms) g /\ 2 <= length (distinct_labels ms) /\
                Permutation ls (distinct_labels ms)) /\
  (forall t ms, In (t, ms) g -> 2 <= length (distinct_labels ms) ->
     exists ls, In (t, ls) (snd R)) /\
  (forall t a, In (t, [a]) g -> In (t, label a) (fst R)) /\
  (forall t ls, In (t, ls) (snd R) -> 2 <= length ls).
Proof.
  split; [exact rev_perm|].
  exact (agreement_check_label_sets Q (@rev value) rev_perm sample_anns).
Defined.

Lemma write_report_entries_witness :
  Forall (fun d => forallb is_str (snd d) = true) sample_disagreements /\
  write_report sample_disagreements =
    (concat_strings (map (fun d => report_entry (fst d) (snd d)) sample_disagreements),
     None).
Proof.
  assert (H : Forall (fun d => forallb is_str (snd d) = true) sample_disagreements)
    by (repeat constructor).
  split; [exact H|].
  apply (proj1 (write_report_entries sample_disagreements H)).
Defined.

(** C7 counterexample: two rows of the text [a\nb] with the labels cat and
    dog give one disagreement, whose report entry spans two lines. *)
Lemma report_entry_spans_two_lines :
  (exists hc,
     filter_by_confidence decimal_float q_ge
       (read_raw_annotations header nl_records) (Qmake 8 10) = Ok hc /\
     snd (apply_agreement_check (fun l => l) (group_by_text hc))
       = [nl_disagreement]) /\
  q_run nl_records (Qmake 8 10) = Ok (mk_outputs EmptyString nl_report None) /\
  count_nl nl_report = 2 /\
  lines nl_report = nl_report_lines.
Proof.
  split; [eexists; split; reflexivity|].
  split; [reflexivity|]. split; reflexivity.
Qed.

Lemma run_deterministic_witness :
  (forall l : list value, Permutation ((fun l => l) l) l) /\
  (forall l : list value, Permutation (rev l) l) /\
  run decimal_float q_ge (fun l => l) header sample_records (Qmake 8 10) =
  run decimal_float q_ge (@rev value) header sample_records (Qmake 8 10).
Proof.
  split; [exact id_perm|]. split; [exact rev_perm|].
  apply (run_deterministic Q decimal_float q_ge (fun l => l) (@rev value)
           id_perm rev_perm header sample_records (Qmake 8 10)).
Defined.

Lemma run_first_seen_order_witness :
  exists o,
  run decimal_float q_ge (@rev value) header sample_records (Qmake 8 10) = Ok o /\
  exists hc,
  filter_by_confidence decimal_float q_ge
    (read_raw_annotations header sample_records) (Qmake 8 10) = Ok hc /\
  lines (clean_file o) =
    map (fun p => json_record (fst p) (snd p)) (agreed_in_order (@rev value) hc) /\
  exists k,
  disagreements_file o =
    concat_strings (map (fun d => report_entry (fst d) (snd d))
                      (firstn k (disagreements_in_order (@rev value) hc))) /\
  (write_error o = None -> k = length (disagreements_in_order (@rev value) hc)).
Proof.
  eexists. split; [reflexivity|].
  apply (run_first_seen_order Q decimal_float q_ge (@rev value) header
           sample_records (Qmake 8 10)).
  reflexivity.
Defined.

(** * Further properties of the pipeline *)

(** ** The record loader *)

Lemma fold_dict_set_fresh :
  forall {A : Type} (key : A -> string) (val : A -> value) xs (d : row),
  NoDup (map fst d ++ map key xs) ->
  fold_left (fun d x => dict_set string_dec (key x) (val x) d) xs d =
  d ++ map (fun x => (key x, val x)) xs.
Proof.
  intros A key val xs; induction xs as [|x xs IH]; intros d Hnd; simpl.
  - rewrite app_nil_r. reflexivity.
  - rewrite dict_set_new.
    + rewrite IH, <- app_assoc; [reflexivity|].
      rewrite map_app, <- app_assoc. exact Hnd.
    + intros Hin. apply NoDup_remove_2 in Hnd. apply Hnd, in_or_app. left; exact Hin.
Qed.

Lemma map_fst_combine :
  forall (ks fs : list string), map fst (combine ks fs) = firstn (length fs) ks.
Proof.
  induction ks as [|k ks IH]; intros [|f fs]; simpl; try reflexivity.
  rewrite IH. reflexivity.
Qed.

Lemma row_of_fields_eq :
  forall ks fs,
  map (fun kv => (fst kv, VStr (snd kv))) (combine ks fs)
  ++ map (fun k => (k, VNone)) (skipn (length fs) ks)
  = row_of_fields ks fs.
Proof.
  induction ks as [|k ks IH]; intros [|f fs]; simpl; try reflexivity.
  - f_equal. rewrite <- (IH []). destruct ks; reflexivity.
  - f_equal. apply IH.
Qed.

(** The string-keyed entries of a loaded row. *)
Lemma dict_reader_row_eq :
  forall fieldnames fields,
  NoDup fieldnames ->
  dict_reader_row fieldnames fields = row_of_fields fieldnames fields.
Proof.
  intros ks fs Hnd. unfold dict_reader_row.
  assert (Hsplit : ks = firstn (length fs) ks ++ skipn (length fs) ks)
    by (symmetry; apply firstn_skipn).
  rewrite (fold_dict_set_fresh fst (fun kv => VStr (snd kv))).
  2:{ simpl. rewrite map_fst_combine. apply (NoDup_app_remove_r _ (skipn (length fs) ks)).
      rewrite <- Hsplit. exact Hnd. }
  rewrite (fold_dict_set_fresh (fun k => k) (fun _ => VNone)).
  2:{ rewrite app_nil_l, map_map. simpl. rewrite map_fst_combine, map_id.
      rewrite <- Hsplit. exact Hnd. }
  simpl. rewrite <- row_of_fields_eq. reflexivity.
Qed.

(** [csv.DictReader] under a header without repeated names makes each data
    row no longer than the header a dict whose keys are the header names in
    header order, each mapped to the field at its position, and to [None]
    when the row is too short. *)
Theorem dict_reader_row_fields :
  forall fieldnames fields,
  NoDup fieldnames ->
  length fields <= length fieldnames ->
  dict_reader_row fieldnames fields = row_of_fields fieldnames fields.
Proof. intros ks fs Hnd _. apply dict_reader_row_eq, Hnd. Qed.

Lemma dict_lookup_row_of_fields :
  forall ks fs i k,
  NoDup ks -> nth_error ks i = Some k ->
  dict_lookup k (row_of_fields ks fs) =
  Some (match nth_error fs i with Some f => VStr f | None => VNone end).
Proof.
  induction ks as [|k' ks IH]; intros fs i k Hnd Hi; [destruct i; discriminate|].
  inversion Hnd as [|? ? Hk' Hnd']; subst.
  destruct i as [|i]; simpl in Hi.
  - injection Hi as <-. destruct fs as [|f fs]; simpl;
      destruct (string_dec k' k'); try congruence; reflexivity.
  - assert (Hne : k <> k') by (intros ->; apply Hk'; eapply nth_error_In; eassumption).
    destruct fs as [|f fs]; simpl; destruct (string_dec k k'); try congruence.
    + rewrite (IH [] i k Hnd' Hi). destruct i; reflexivity.
    + apply (IH fs i k Hnd' Hi).
Qed.

Lemma dict_lookup_row_of_fields_absent :
  forall ks fs k, ~ In k ks -> dict_lookup k (row_of_fields ks fs) = None.
Proof.
  induction ks as [|k' ks IH]; intros fs k Hk; [reflexivity|].
  destruct fs as [|f fs]; simpl;
    (destruct (string_dec k k') as [->|]; [elim Hk; left; reflexivity|]);
    apply IH; intros H; apply Hk; right; exact H.
Qed.

(** Looking a column up in a loaded row, under a header without repeated
    names: [row[k]] is the field at the column's position, [None] when the
    data row is too short, and raises [KeyError] for a name not in the
    header. *)
Theorem read_raw_annotations_getitem :
  forall fieldnames records r,
  NoDup fieldnames -> In r (read_raw_annotations fieldnames records) ->
  exists fields,
  In fields records /\ fields <> [] /\
  (forall i k, nth_error fieldnames i = Some k ->
     getitem r k = Ok (match nth_error fields i with
                       | Some f => VStr f
                       | None => VNone
                       end)) /\
  (forall k, ~ In k fieldnames -> getitem r k = Err (KeyError k)).
Proof.
  intros ks recs r Hnd Hin. unfold read_raw_annotations in Hin.
  apply in_map_iff in Hin as [fs [<- Hin]]. apply filter_In in Hin as [Hin Hne].
  exists fs. split; [exact Hin|]. split; [destruct fs; [discriminate | congruence]|].
  rewrite dict_reader_row_eq by exact Hnd. unfold getitem. split.
  - intros i k Hi. rewrite (dict_lookup_row_of_fields ks fs i k Hnd Hi). reflexivity.
  - intros k Hk. rewrite dict_lookup_row_of_fields_absent by exact Hk. reflexivity.
Qed.

(** ** The confidence filter *)

Section FilterProofs.

Variable F : Type.
Variable py_float : string -> option F.
Variable py_ge : F -> F -> bool.

Lemma filter_by_confidence_app_eq :
  forall rows1 rows2 threshold,
  filter_by_confidence py_float py_ge (rows1 ++ rows2) threshold =
  match filter_by_confidence py_float py_ge rows1 threshold with
  | Err e => Err e
  | Ok out1 =>
      match filter_by_confidence py_float py_ge rows2 threshold with
      | Err e => Err e
      | Ok out2 => Ok (out1 ++ out2)
      end
  end.
Proof.
  induction rows1 as [|r rs IH]; intros rows2 threshold.
  - simpl. destruct (filter_by_confidence py_float py_ge rows2 threshold); reflexivity.
  - simpl. rewrite IH.
    destruct (match getitem r "confidence_score" with
              | Ok v => to_float py_float v | Err e => Err e end)
      as [c|[k| |]]; try reflexivity.
    destruct (py_ge c threshold); [|reflexivity].
    destruct (getitem r "text"); [|reflexivity].
    destruct (getitem r "label"); [|reflexivity].
    destruct (filter_by_confidence py_float py_ge rs threshold); [|reflexivity].
    destruct (filter_by_confidence py_float py_ge rows2 threshold); reflexivity.
Qed.

(** Filtering a concatenation of record lists is filtering each part: the
    accepted annotations are those of the first part followed by those of the
    second, and an exception of the first part is raised before the second
    part is looked at. *)
Theorem filter_by_confidence_app :
  forall rows1 rows2 threshold,
  filter_by_confidence py_float py_ge (rows1 ++ rows2) threshold =
  match filter_by_confidence py_float py_ge rows1 threshold with
  | Err e => Err e
  | Ok out1 =>
      match filter_by_confidence py_float py_ge rows2 threshold with
      | Err e => Err e
      | Ok out2 => Ok (out1 ++ out2)
      end
  end.
Proof. exact filter_by_confidence_app_eq. Qed.

(** The only exceptions that leave the filter are [KeyError "text"],
    [KeyError "label"] and [TypeError]: it never raises [ValueError], nor a
    [KeyError] for ["confidence_score"]. *)
Theorem filter_by_confidence_errors :
  forall rows threshold e,
  filter_by_confidence py_float py_ge rows threshold = Err e ->
  e = KeyError "text" \/ e = KeyError "label" \/ e = TypeError.
Proof.
  induction rows as [|r rs IH]; intros threshold e H; simpl in H; [discriminate|].
  unfold getitem, to_float in H.
  destruct (dict_lookup "confidence_score" r) as [[s|]|];
    [| injection H as <-; tauto | now apply (IH threshold)].
  destruct (py_float s) as [c|]; [|now apply (IH threshold)].
  destruct (py_ge c threshold); [|now apply (IH threshold)].
  destruct (dict_lookup "text" r); [|injection H as <-; tauto].
  destruct (dict_lookup "label" r); [|injection H as <-; tauto].
  destruct (filter_by_confidence py_float py_ge rs threshold) eqn:Hrs; [discriminate|].
  injection H as <-. now apply (IH threshold).
Qed.

Lemma filter_by_confidence_single_dropped :
  forall r threshold,
  qc1 py_float py_ge threshold r = None ->
  dict_lookup "confidence_score" r <> Some VNone ->
  filter_by_confidence py_float py_ge [r] threshold = Ok [].
Proof.
  intros r threshold Hq Hn. simpl. unfold qc1 in Hq. unfold getitem, to_float.
  destruct (dict_lookup "confidence_score" r) as [[s|]|]; [|now elim Hn|reflexivity].
  destruct (py_float s) as [c|]; [|reflexivity].
  destruct (py_ge c threshold); [discriminate|reflexivity].
Qed.

Lemma filter_by_confidence_length :
  forall rows threshold out,
  filter_by_confidence py_float py_ge rows threshold = Ok out -> length out <= length rows.
Proof.
  induction rows as [|r rs IH]; intros threshold out H; simpl in H.
  - injection H as <-. reflexivity.
  - simpl. unfold getitem, to_float in H.
    destruct (dict_lookup "confidence_score" r) as [[s|]|]; try discriminate;
      [|apply IH in H; lia].
    destruct (py_float s) as [c|]; [|apply IH in H; lia].
    destruct (py_ge c threshold); [|apply IH in H; lia].
    destruct (dict_lookup "text" r); try discriminate.
    destruct (dict_lookup "label" r); try discriminate.
    destruct (filter_by_confidence py_float py_ge rs threshold) as [out'|] eqn:Hrs; try discriminate.
    injection H as <-. simpl. apply IH in Hrs. lia.
Qed.

Section Monotone.

Hypothesis py_ge_trans :
  forall a b c, py_ge a b = true -> py_ge b c = true -> py_ge a c = true.

(** Raising the threshold: when the filter returns at a threshold [t1], it
    also returns at any threshold [t2 >= t1], and the annotations it accepts
    there are those accepted at [t1] whose confidence is [>= t2], in the same
    order; this needs [>=] on floats to be transitive. *)
Theorem filter_by_confidence_threshold_mono :
  forall rows t1 t2 out,
  py_ge t2 t1 = true ->
  filter_by_confidence py_float py_ge rows t1 = Ok out ->
  filter_by_confidence py_float py_ge rows t2 =
    Ok (filter (fun a => py_ge (confidence_score a) t2) out).
Proof.
  induction rows as [|r rs IH]; intros t1 t2 out H21 H; simpl in H.
  - injection H as <-. reflexivity.
  - simpl. unfold getitem, to_float in *.
    destruct (dict_lookup "confidence_score" r) as [[s|]|]; try discriminate;
      [|now apply (IH t1)].
    destruct (py_float s) as [c|]; [|now apply (IH t1)].
    destruct (py_ge c t1) eqn:Hc1.
    + destruct (dict_lookup "text" r); try discriminate.
      destruct (dict_lookup "label" r); try discriminate.
      destruct (filter_by_confidence py_float py_ge rs t1) as [out'|] eqn:Hrs; try discriminate.
      injection H as <-. rewrite (IH t1 t2 out' H21 Hrs). simpl.
      destruct (py_ge c t2); reflexivity.
    + assert (Hc2 : py_ge c t2 = false).
      { destruct (py_ge c t2) eqn:E; [|reflexivity].
        rewrite (py_ge_trans c t2 t1 E H21) in Hc1. discriminate. }
      rewrite Hc2. now apply (IH t1).
Qed.

End Monotone.

End FilterProofs.

Arguments filter_by_confidence_app_eq {F} py_float py_ge rows1 rows2 threshold.
Arguments filter_by_confidence_single_dropped {F} py_float py_ge r threshold.
Arguments filter_by_confidence_length {F} py_float py_ge rows threshold out.

(** ** Labels of agreed samples and disagreements *)

Lemma In_members :
  forall {F : Type} (a : ann F) t hc, In a (members t hc) <-> In a hc /\ text a = t.
Proof.
  intros F a t hc. unfold members. rewrite filter_In. unfold value_eqb.
  destruct (value_eq_dec (text a) t); intuition congruence.
Qed.

Lemma In_label_set :
  forall {F : Type} enum, (forall l, Permutation (enum l) l) ->
  forall (ms : list (ann F)) x, In x (label_set enum ms) <-> exists a, In a ms /\ label a = x.
Proof.
  intros F enum Henum ms x. unfold label_set. split; intros H.
  - apply (Permutation_in _ (Henum _)), nodup_In, in_map_iff in H as [a [<- Ha]].
    exists a; auto.
  - destruct H as [a [Ha <-]]. apply (Permutation_in _ (Permutation_sym (Henum _))).
    apply nodup_In, in_map_iff. exists a; auto.
Qed.

Lemma label_set_NoDup :
  forall {F : Type} enum, (forall l, Permutation (enum l) l) ->
  forall ms : list (ann F), NoDup (label_set enum ms).
Proof.
  intros F enum Henum ms. unfold label_set.
  apply (Permutation_NoDup (Permutation_sym (Henum _))), NoDup_nodup.
Qed.

Lemma disagreement_labels :
  forall {F : Type} enum (hc : list (ann F)) t ls,
  In (t, ls) (snd (apply_agreement_check enum (group_by_text hc))) ->
  ls = label_set enum (members t hc).
Proof.
  intros F enum hc t ls Hin.
  rewrite (apply_agreement_check_eq F enum _ (group_by_text_NoDup F hc)),
    group_by_text_eq in Hin. simpl in Hin.
  apply in_map_iff in Hin as [[t' ms] [Heq Hin]].
  apply filter_In in Hin as [Hin _].
  apply in_map_iff in Hin as [t'' [Heq' _]]. injection Heq' as Ht' Hms. subst ms. subst t'.
  unfold disagreement_entry in Heq. simpl in Heq. injection Heq as -> ->.
  reflexivity.
Qed.

Section LabelProofs.

Variable F : Type.
Variable enum : list value -> list value.
Hypothesis enum_perm : forall l, Permutation (enum l) l.

(** Resolving the accepted annotations: every accepted annotation of an
    agreed text carries the agreed label; the labels of a disagreement are
    the labels of the accepted annotations of its text, each listed once. *)
Theorem agreement_labels_of_annotations :
  forall hc : list (ann F),
  let R := apply_agreement_check enum (group_by_text hc) in
  (forall t l, In (t, l) (fst R) ->
     forall a, In a hc -> text a = t -> label a = l) /\
  (forall t ls, In (t, ls) (snd R) ->
     NoDup ls /\
     forall x, In x ls <-> exists a, In a hc /\ text a = t /\ label a = x).
Proof.
  intros hc R. split.
  - intros t l Hin a Ha Hta. unfold R in Hin.
    rewrite (apply_agreement_check_eq F enum _ (group_by_text_NoDup F hc)),
      group_by_text_eq in Hin. simpl in Hin.
    apply in_map_iff in Hin as [[t' ms] [Heq Hin]].
    apply filter_In in Hin as [Hin Hagr].
    apply in_map_iff in Hin as [t'' [Heq' _]]. injection Heq' as Ht' Hms. subst ms. subst t'.
    apply (agrees_single F enum enum_perm) in Hagr as [l' Hd].
    unfold agreed_entry in Heq. simpl in Heq.
    rewrite (label_set_single F enum enum_perm _ _ Hd) in Heq.
    injection Heq as -> ->.
    assert (Hl : In (label a) (distinct_labels (members t hc))).
    { unfold distinct_labels. apply nodup_In, in_map_iff. exists a.
      split; [reflexivity|]. apply In_members. auto. }
    rewrite Hd in Hl. destruct Hl as [Hl|[]]. symmetry; exact Hl.
  - intros t ls Hin. apply disagreement_labels in Hin. subst ls. split.
    + apply label_set_NoDup, enum_perm.
    + intros x. rewrite (In_label_set enum enum_perm). split.
      * intros [a [Ha Hx]]. apply In_members in Ha as [Ha Ht]. exists a; auto.
      * intros [a [Ha [Ht Hx]]]. exists a. split; [apply In_members; auto | exact Hx].
Qed.

Lemma py_str_NoDup :
  forall ls, forallb is_str ls = true -> NoDup ls -> NoDup (map py_str ls).
Proof.
  induction ls as [|x ls IH]; intros Hs Hnd; simpl; [constructor|].
  simpl in Hs. apply andb_true_iff in Hs as [Hx Hs].
  inversion Hnd as [|? ? Hxl Hnd']; subst.
  constructor; [|apply IH; assumption].
  intros Hin. apply in_map_iff in Hin as [y [Hy Hin]].
  apply Hxl. destruct x as [sx|]; [|discriminate].
  rewrite forallb_forall in Hs. specialize (Hs y Hin).
  destruct y as [sy|]; [|discriminate]. simpl in Hy. subst sy. exact Hin.
Qed.

Lemma strongly_sorted_strict :
  forall l, StronglySorted str_le l -> NoDup l ->
  StronglySorted (fun a b => str_ltb a b = true) l.
Proof.
  induction l as [|x l IH]; intros Hs Hnd; [constructor|].
  inversion Hs as [|? ? Hs' Hall]; subst.
  inversion Hnd as [|? ? Hx Hnd']; subst.
  constructor; [apply IH; assumption|].
  rewrite Forall_forall in Hall |- *. intros y Hy.
  specialize (Hall y Hy). unfold str_le, str_leb in Hall.
  destruct (str_ltb_total x y) as [->|[H|H]]; [contradiction|exact H|].
  rewrite H in Hall. discriminate.
Qed.

(** A disagreement whose labels are all [str] gets the report line
    [TEXT: <text> | LABELS: <labels>] whose labels are those of the
    disagreement, each once, in strictly increasing code-point order. *)
Theorem report_line_labels_strict :
  forall (hc : list (ann F)) t ls,
  In (t, ls) (snd (apply_agreement_check enum (group_by_text hc))) ->
  forallb is_str ls = true ->
  exists ss,
  report_line t ls = Ok (("TEXT: " ++ py_str t ++ " | LABELS: "
                          ++ join ", " ss ++ nl)%string) /\
  Permutation ss (map py_str ls) /\
  StronglySorted (fun a b => str_ltb a b = true) ss.
Proof.
  intros hc t ls Hin Hs. exists (sort_strs (map py_str ls)).
  split; [rewrite report_line_ok by exact Hs; reflexivity|].
  split; [apply sort_strs_perm|].
  apply strongly_sorted_strict.
  - apply Sorted_StronglySorted; [exact str_le_trans | apply sort_strs_Sorted].
  - apply (Permutation_NoDup (Permutation_sym (sort_strs_perm _))).
    apply py_str_NoDup; [exact Hs|].
    apply disagreement_labels in Hin. subst ls. apply label_set_NoDup, enum_perm.
Qed.

End LabelProofs.

(** ** Writing the report *)

Lemma write_report_app_eq :
  forall ds1 ds2,
  write_report (ds1 ++ ds2) =
  match write_report ds1 with
  | (s1, None) => let '(s2, e2) := write_report ds2 in ((s1 ++ s2)%string, e2)
  | (s1, Some e) => (s1, Some e)
  end.
Proof.
  induction ds1 as [|[t ls] ds1 IH]; intros ds2; simpl.
  - destruct (write_report ds2); reflexivity.
  - destruct (report_line t ls) as [line|e]; [|reflexivity].
    rewrite IH. destruct (write_report ds1) as [s1 [e1|]]; [reflexivity|].
    destruct (write_report ds2) as [s2 e2]. rewrite str_app_assoc. reflexivity.
Qed.

(** Writing the report for a concatenation of disagreement lists: the
    entries of the second list follow those of the first, unless writing the
    first raised, in which case nothing of the second is written. *)
Theorem write_report_app :
  forall ds1 ds2,
  write_report (ds1 ++ ds2) =
  match write_report ds1 with
  | (s1, None) => let '(s2, e2) := write_report ds2 in ((s1 ++ s2)%string, e2)
  | (s1, Some e) => (s1, Some e)
  end.
Proof. exact write_report_app_eq. Qed.

(** A disagreement one of whose labels is [None] stops the report with the
    [TypeError] of [sorted] on [None]: the entries written before it stay in
    the file, nothing after it is written. *)
Theorem write_report_none_label :
  forall ds1 t ls ds2 s,
  write_report ds1 = (s, None) -> In VNone ls ->
  write_report (ds1 ++ (t, ls) :: ds2) = (s, Some TypeError).
Proof.
  intros ds1 t ls ds2 s H1 Hn. rewrite write_report_app_eq, H1. simpl.
  unfold report_line, label_list.
  destruct (forallb is_str ls) eqn:Hs.
  - rewrite forallb_forall in Hs. specialize (Hs VNone Hn). discriminate.
  - rewrite str_app_nil_r. reflexivity.
Qed.

(** ** The pipeline, end to end *)

Lemma first_seen_from_length :
  forall l seen, length (first_seen_from seen l) <= length l.
Proof.
  induction l as [|x l IH]; intros seen; simpl; [lia|].
  destruct (in_dec value_eq_dec x seen); simpl; [specialize (IH seen) | specialize (IH (x :: seen))]; lia.
Qed.

Lemma length_filter_split :
  forall {A : Type} (p : A -> bool) l,
  length (filter p l) + length (filter (fun x => negb (p x)) l) = length l.
Proof.
  intros A p l; induction l as [|x l IH]; simpl; [reflexivity|].
  destruct (p x); simpl; lia.
Qed.

Lemma NoDup_map_injective :
  forall {A B : Type} (f : A -> B) l,
  (forall x y, f x = f y -> x = y) -> NoDup l -> NoDup (map f l).
Proof.
  intros A B f l Hf Hnd; induction Hnd as [|x l Hx Hnd IH]; simpl; constructor;
    [|exact IH].
  intros Hin. apply in_map_iff in Hin as [y [Hy Hin]].
  apply Hf in Hy. subst y. contradiction.
Qed.

Lemma read_raw_annotations_app :
  forall fieldnames records1 records2,
  read_raw_annotations fieldnames (records1 ++ records2) =
  read_raw_annotations fieldnames records1 ++ read_raw_annotations fieldnames records2.
Proof.
  intros. unfold read_raw_annotations. rewrite filter_app, map_app. reflexivity.
Qed.

Section RunProofs.

Variable F : Type.
Variable py_float : string -> option F.
Variable py_ge : F -> F -> bool.

(** A record that fails QC1 (no confidence column value, one that does not
    parse as a float, or one below the threshold, but not [None]) can be
    added anywhere in the input without changing anything the pipeline
    writes or raises; so can a blank record. *)
Theorem run_ignores_dropped_record :
  forall enum fieldnames records1 r records2 threshold,
  r = [] \/
  (qc1 py_float py_ge threshold (dict_reader_row fieldnames r) = None /\
   dict_lookup "confidence_score" (dict_reader_row fieldnames r) <> Some VNone) ->
  run py_float py_ge enum fieldnames (records1 ++ r :: records2) threshold =
  run py_float py_ge enum fieldnames (records1 ++ records2) threshold.
Proof.
  intros enum fieldnames records1 r records2 threshold Hr. unfold run.
  rewrite !read_raw_annotations_app.
  change (r :: records2) with ([r] ++ records2). rewrite read_raw_annotations_app.
  destruct Hr as [->|[Hq Hn]]; [reflexivity|].
  unfold read_raw_annotations at 2. simpl.
  destruct r as [|f fs]; [reflexivity|]. simpl.
  rewrite (filter_by_confidence_app_eq py_float py_ge _ (_ :: _)).
  change (dict_reader_row fieldnames (f :: fs) :: read_raw_annotations fieldnames records2)
    with ([dict_reader_row fieldnames (f :: fs)] ++ read_raw_annotations fieldnames records2).
  rewrite (filter_by_confidence_app_eq py_float py_ge [_]).
  rewrite (filter_by_confidence_single_dropped py_float py_ge _ _ Hq Hn).
  rewrite (filter_by_confidence_app_eq py_float py_ge (read_raw_annotations fieldnames records1)).
  destruct (filter_by_confidence py_float py_ge
              (read_raw_annotations fieldnames records1) threshold); [|reflexivity].
  destruct (filter_by_confidence py_float py_ge
              (read_raw_annotations fieldnames records2) threshold); reflexivity.
Qed.

(** The counts that [main] prints: at most one accepted annotation per
    loaded record, at most one text group per accepted annotation and none
    only when nothing was accepted, and every group is either an agreed
    sample or a disagreement. *)
Theorem run_counts :
  forall enum fieldnames records threshold hc,
  filter_by_confidence py_float py_ge
    (read_raw_annotations fieldnames records) threshold = Ok hc ->
  let g := group_by_text hc in
  let R := apply_agreement_check enum g in
  length (read_raw_annotations fieldnames records) <= length records /\
  length hc <= length (read_raw_annotations fieldnames records) /\
  length g <= length hc /\
  (g = [] <-> hc = []) /\
  length (fst R) + length (snd R) = length g.
Proof.
  intros enum fieldnames records threshold hc Hf g R.
  split; [unfold read_raw_annotations; rewrite length_map; apply filter_length_le|].
  split; [exact (filter_by_confidence_length py_float py_ge _ _ _ Hf)|].
  split.
  { unfold g. rewrite group_by_text_eq, length_map.
    rewrite <- (length_map text hc). apply first_seen_from_length. }
  split.
  { split; [|intros ->; reflexivity].
    intros Hg. assert (Hp := group_by_text_perm F hc). fold g in Hp.
    rewrite Hg in Hp. apply Permutation_nil, Hp. }
  unfold R. rewrite (apply_agreement_check_eq F enum g (group_by_text_NoDup F hc)).
  simpl. rewrite !length_map. apply length_filter_split.
Qed.

(** The clean dataset written by a run never has two equal lines. *)
Theorem run_clean_lines_NoDup :
  forall enum fieldnames records threshold o,
  run py_float py_ge enum fieldnames records threshold = Ok o ->
  NoDup (lines (clean_file o)).
Proof.
  intros enum fieldnames records threshold o Hrun. unfold run in Hrun.
  destruct (filter_by_confidence py_float py_ge
              (read_raw_annotations fieldnames records) threshold) as [hc|e];
    [|discriminate].
  rewrite apply_agreement_check_in_order in Hrun.
  injection Hrun as <-. unfold write_outputs.
  destruct (write_report (disagreements_in_order enum hc)) as [rep e]. simpl.
  unfold lines. rewrite lines_fuel_write_clean by lia.
  unfold agreed_in_order. rewrite map_map. simpl.
  apply NoDup_map_injective.
  - intros x y Hxy. apply (f_equal json_decode_record) in Hxy.
    rewrite !json_decode_record_json in Hxy. congruence.
  - apply NoDup_filter, first_seen_from_NoDup.
Qed.

End RunProofs.

(** ** Repeated records *)

Lemma first_seen_from_skip :
  forall m l seen, (forall x, In x m -> In x seen) ->
  first_seen_from seen (m ++ l) = first_seen_from seen l.
Proof.
  induction m as [|y m IH]; intros l seen Hm; simpl; [reflexivity|].
  destruct (in_dec value_eq_dec y seen) as [_|Hy]; [|elim Hy; apply Hm; left; reflexivity].
  apply IH. intros x Hx. apply Hm. right; exact Hx.
Qed.

Lemma first_seen_from_insert :
  forall l1 m l2 seen, (forall x, In x m -> In x seen \/ In x l1) ->
  first_seen_from seen (l1 ++ m ++ l2) = first_seen_from seen (l1 ++ l2).
Proof.
  induction l1 as [|y l1 IH]; intros m l2 seen Hm; simpl.
  - apply first_seen_from_skip. intros x Hx. destruct (Hm x Hx) as [H|[]]. exact H.
  - destruct (in_dec value_eq_dec y seen) as [Hy|Hy].
    + apply IH. intros x Hx. destruct (Hm x Hx) as [H|[->|H]]; auto.
    + f_equal. apply IH. intros x Hx. destruct (Hm x Hx) as [H|[->|H]]; simpl; auto.
Qed.

Section SameAnnotations.

Variable F : Type.
Variable enum : list value -> list value.
Hypothesis enum_perm : forall l, Permutation (enum l) l.

Lemma label_set_same_members :
  forall hc hc' : list (ann F),
  (forall a, In a hc <-> In a hc') ->
  forall t, Permutation (label_set enum (members t hc)) (label_set enum (members t hc')).
Proof.
  intros hc hc' Hsame t. apply NoDup_Permutation; try apply label_set_NoDup, enum_perm.
  intros x. rewrite !(In_label_set enum enum_perm).
  split; intros [a [Ha Hx]]; exists a; split; try exact Hx;
    apply In_members in Ha as [Ha Ht]; apply In_members; split; try exact Ht;
    apply Hsame; exact Ha.
Qed.

Lemma write_report_label_perm :
  forall (f g : value -> list value) ts,
  (forall t, Permutation (f t) (g t)) ->
  write_report (map (fun t => (t, f t)) ts) = write_report (map (fun t => (t, g t)) ts).
Proof.
  intros f g ts Hp. induction ts as [|t ts IH]; [reflexivity|]. simpl.
  unfold report_line. rewrite (label_list_perm (f t) (g t) (Hp t)), IH. reflexivity.
Qed.

(** The resolver and the writer see the accepted annotations only through
    the set of them and the order in which their texts first appear. *)
Lemma outputs_same_annotations :
  forall hc hc' : list (ann F),
  (forall a, In a hc <-> In a hc') ->
  first_seen (map text hc) = first_seen (map text hc') ->
  write_outputs (fst (apply_agreement_check enum (group_by_text hc)))
                (snd (apply_agreement_check enum (group_by_text hc))) =
  write_outputs (fst (apply_agreement_check enum (group_by_text hc')))
                (snd (apply_agreement_check enum (group_by_text hc'))).
Proof.
  intros hc hc' Hsame Hfs.
  rewrite !apply_agreement_check_in_order. simpl.
  assert (Hp := label_set_same_members hc hc' Hsame).
  assert (Hag : forall t, agrees enum (t, members t hc) = agrees enum (t, members t hc')).
  { intros t. unfold agrees. simpl. rewrite (Permutation_length (Hp t)). reflexivity. }
  unfold agreed_in_order, disagreements_in_order. rewrite <- Hfs.
  rewrite (filter_ext _ _ Hag).
  rewrite (filter_ext (fun t => negb (agrees enum (t, members t hc)))
                      (fun t => negb (agrees enum (t, members t hc'))))
    by (intros t; rewrite Hag; reflexivity).
  unfold write_outputs.
  rewrite (write_report_label_perm (fun t => label_set enum (members t hc))
                                   (fun t => label_set enum (members t hc')) _ Hp).
  destruct (write_report _) as [rep e]. f_equal. f_equal.
  apply map_ext_in. intros t Hin. apply filter_In in Hin as [_ Ha].
  unfold agrees in Ha. simpl in Ha. apply Nat.eqb_eq in Ha.
  destruct (label_set enum (members t hc')) as [|l [|]] eqn:E; try discriminate.
  specialize (Hp t). rewrite E in Hp.
  rewrite (Permutation_length_1_inv (Permutation_sym Hp)). reflexivity.
Qed.

End SameAnnotations.

Lemma filter_by_confidence_member :
  forall {F : Type} py_float py_ge (rows : list row) (d : row) threshold (out : list (ann F)),
  In d rows -> filter_by_confidence py_float py_ge rows threshold = Ok out ->
  exists o, filter_by_confidence py_float py_ge [d] threshold = Ok o /\
            forall a, In a o -> In a out.
Proof.
  intros F py_float py_ge rows d threshold out Hd Hf.
  apply in_split in Hd as [A [B ->]].
  change (d :: B) with ([d] ++ B) in Hf.
  rewrite (filter_by_confidence_app_eq py_float py_ge A),
    (filter_by_confidence_app_eq py_float py_ge [d]) in Hf.
  destruct (filter_by_confidence py_float py_ge A threshold) as [oA|]; [|discriminate].
  destruct (filter_by_confidence py_float py_ge [d] threshold) as [o|]; [|discriminate].
  destruct (filter_by_confidence py_float py_ge B threshold) as [oB|]; [|discriminate].
  injection Hf as <-. exists o. split; [reflexivity|].
  intros a Ha. apply in_or_app. right. apply in_or_app. left. exact Ha.
Qed.

(** Repeating a record later in the input changes nothing the pipeline
    writes or raises: its annotation, if any, is already among the accepted
    ones, its text is already grouped and its label already in the label
    set of its text. *)
Theorem run_ignores_repeated_record :
  forall {F : Type} py_float py_ge enum,
  (forall l, Permutation (enum l) l) ->
  forall fieldnames records1 r records2 (threshold : F),
  In r records1 ->
  run py_float py_ge enum fieldnames (records1 ++ r :: records2) threshold =
  run py_float py_ge enum fieldnames (records1 ++ records2) threshold.
Proof.
  intros F py_float py_ge enum Henum fieldnames records1 r records2 threshold Hr.
  unfold run. rewrite !read_raw_annotations_app.
  change (r :: records2) with ([r] ++ records2). rewrite read_raw_annotations_app.
  rewrite !(filter_by_confidence_app_eq py_float py_ge (read_raw_annotations fieldnames records1)).
  rewrite (filter_by_confidence_app_eq py_float py_ge (read_raw_annotations fieldnames [r])).
  destruct (filter_by_confidence py_float py_ge
              (read_raw_annotations fieldnames records1) threshold) as [h1|e] eqn:H1;
    [|reflexivity].
  destruct r as [|f fs].
  { change (read_raw_annotations fieldnames [[]]) with (@nil row).
    destruct (filter_by_confidence py_float py_ge
                (read_raw_annotations fieldnames records2) threshold); reflexivity. }
  change (read_raw_annotations fieldnames [f :: fs])
    with [dict_reader_row fieldnames (f :: fs)].
  assert (Hd : In (dict_reader_row fieldnames (f :: fs))
                  (read_raw_annotations fieldnames records1)).
  { unfold read_raw_annotations. apply in_map, filter_In. split; [exact Hr | reflexivity]. }
  destruct (filter_by_confidence_member py_float py_ge _ _ threshold h1 Hd H1)
    as [o [Ho Hsub]].
  rewrite Ho.
  destruct (filter_by_confidence py_float py_ge
              (read_raw_annotations fieldnames records2) threshold) as [h2|e];
    [|reflexivity].
  destruct (apply_agreement_check enum (group_by_text (h1 ++ o ++ h2))) as [A1 D1] eqn:E1.
  destruct (apply_agreement_check enum (group_by_text (h1 ++ h2))) as [A2 D2] eqn:E2.
  f_equal.
  change (write_outputs A1 D1) with (write_outputs (fst (A1, D1)) (snd (A1, D1))).
  change (write_outputs A2 D2) with (write_outputs (fst (A2, D2)) (snd (A2, D2))).
  rewrite <- E1, <- E2. apply outputs_same_annotations; [exact Henum| |].
  - intros a. rewrite !in_app_iff. split; [|tauto].
    intros [H|[H|H]]; auto.
  - unfold first_seen. rewrite !map_app. apply first_seen_from_insert.
    intros x Hx. right. apply in_map_iff in Hx as [a [<- Ha]].
    apply in_map, Hsub, Ha.
Qed.

(** The report is written without an exception exactly when every
    disagreement has only [str] labels. *)
Theorem write_report_error_iff :
  forall ds,
  snd (write_report ds) = None <-> Forall (fun d => forallb is_str (snd d) = true) ds.
Proof.
  induction ds as [|[t ls] ds IH]; simpl; [split; constructor|].
  unfold report_line, label_list.
  destruct (forallb is_str ls) eqn:Hs.
  - destruct (write_report ds) as [s e]. simpl in *. rewrite IH. split.
    + intros H. constructor; [exact Hs | exact H].
    + intros H. inversion H; assumption.
  - split; [discriminate|]. intros H. inversion H as [|? ? Hx]; subst.
    simpl in Hx. congruence.
Qed.

Lemma filter_by_confidence_all_dropped :
  forall {F : Type} py_float py_ge (rows : list row) (threshold : F),
  (forall r, In r rows ->
     qc1 py_float py_ge threshold r = None /\
     dict_lookup "confidence_score" r <> Some VNone) ->
  filter_by_confidence py_float py_ge rows threshold = Ok [].
Proof.
  intros F py_float py_ge rows threshold H.
  induction rows as [|r rs IH]; [reflexivity|].
  change (r :: rs) with ([r] ++ rs).
  rewrite (filter_by_confidence_app_eq py_float py_ge [r]).
  destruct (H r (or_introl eq_refl)) as [Hq Hn].
  rewrite (filter_by_confidence_single_dropped py_float py_ge r threshold Hq Hn).
  rewrite IH by (intros r' Hr'; apply H; right; exact Hr'). reflexivity.
Qed.

(** When every loaded row fails QC1 with a confidence value that is not
    [None] (absent, not a float, or below the threshold), the run writes two
    empty files and raises nothing. *)
Theorem run_no_accepted :
  forall {F : Type} py_float py_ge enum fieldnames records (threshold : F),
  (forall r, In r (read_raw_annotations fieldnames records) ->
     qc1 py_float py_ge threshold r = None /\
     dict_lookup "confidence_score" r <> Some VNone) ->
  run py_float py_ge enum fieldnames records threshold =
  Ok (mk_outputs EmptyString EmptyString None).
Proof.
  intros F py_float py_ge enum fieldnames records threshold H.
  unfold run. rewrite (filter_by_confidence_all_dropped py_float py_ge _ threshold H).
  reflexivity.
Qed.

(** ** Instances of the hypotheses *)

Lemma header_NoDup : NoDup header.
Proof.
  unfold header. repeat constructor; simpl; intuition discriminate.
Qed.

Lemma q_ge_trans :
  forall a b c, q_ge a b = true -> q_ge b c = true -> q_ge a c = true.
Proof.
  unfold q_ge. intros a b c H1 H2. apply Qle_bool_iff in H1, H2.
  apply Qle_bool_iff. eapply Qle_trans; eassumption.
Qed.

Lemma dict_reader_row_fields_witness :
  NoDup header /\ length sample_fields <= length header /\
  dict_reader_row header sample_fields = row_of_fields header sample_fields.
Proof.
  assert (Hl : length sample_fields <= length header) by (simpl; lia).
  split; [exact header_NoDup|]. split; [exact Hl|].
  apply (dict_reader_row_fields header sample_fields header_NoDup Hl).
Defined.

Lemma read_raw_annotations_getitem_witness :
  NoDup header /\
  In (dict_reader_row header sample_fields)
     (read_raw_annotations header [sample_fields]) /\
  exists fields,
  In fields [sample_fields] /\ fields <> [] /\
  (forall i k, nth_error header i = Some k ->
     getitem (dict_reader_row header sample_fields) k =
       Ok (match nth_error fields i with
           | Some f => VStr f
           | None => VNone
           end)) /\
  (forall k, ~ In k header ->
     getitem (dict_reader_row header sample_fields) k = Err (KeyError k)).
Proof.
  assert (Hin : In (dict_reader_row header sample_fields)
                   (read_raw_annotations header [sample_fields]))
    by (left; reflexivity).
  split; [exact header_NoDup|]. split; [exact Hin|].
  apply (read_raw_annotations_getitem header [sample_fields] _ header_NoDup Hin).
Defined.

Lemma filter_by_confidence_errors_witness :
  filter_by_confidence decimal_float q_ge short_rows (Qmake 8 10) = Err TypeError /\
  (TypeError = KeyError "text" \/ TypeError = KeyError "label" \/ TypeError = TypeError).
Proof.
  assert (H : filter_by_confidence decimal_float q_ge short_rows (Qmake 8 10)
              = Err TypeError) by reflexivity.
  split; [exact H|].
  apply (filter_by_confidence_errors Q decimal_float q_ge short_rows (Qmake 8 10)
           TypeError H).
Defined.

Lemma filter_by_confidence_threshold_mono_witness :
  q_ge (Qmake 9 10) (Qmake 8 10) = true /\
  exists out,
  filter_by_confidence decimal_float q_ge qc1_rows (Qmake 8 10) = Ok out /\
  filter_by_confidence decimal_float q_ge qc1_rows (Qmake 9 10) =
    Ok (filter (fun a => q_ge (confidence_score a) (Qmake 9 10)) out).
Proof.
  assert (H21 : q_ge (Qmake 9 10) (Qmake 8 10) = true) by reflexivity.
  split; [exact H21|].
  eexists. split; [reflexivity|].
  apply (filter_by_confidence_threshold_mono Q decimal_float q_ge q_ge_trans
           qc1_rows (Qmake 8 10) (Qmake 9 10)); [exact H21 | reflexivity].
Defined.

Lemma agreement_labels_of_annotations_witness :
  (forall l : list value, Permutation (rev l) l) /\
  let R := apply_agreement_check (@rev value) (group_by_text sample_anns) in
  (forall t l, In (t, l) (fst R) ->
     forall a, In a sample_anns -> text a = t -> label a = l) /\
  (forall t ls, In (t, ls) (snd R) ->
     NoDup ls /\
     forall x, In x ls <-> exists a, In a sample_anns /\ text a = t /\ label a = x).
Proof.
  split; [exact rev_perm|].
  exact (agreement_labels_of_annotations Q (@rev value) rev_perm sample_anns).
Defined.

Lemma report_line_labels_strict_witness :
  (forall l : list value, Permutation (rev l) l) /\
  In (VStr "x", [VStr "dog"; VStr "cat"])
     (snd (apply_agreement_check (@rev value) (group_by_text sample_anns))) /\
  forallb is_str [VStr "dog"; VStr "cat"] = true /\
  exists ss,
  report_line (VStr "x") [VStr "dog"; VStr "cat"] =
    Ok (("TEXT: " ++ py_str (VStr "x") ++ " | LABELS: " ++ join ", " ss ++ nl)%string) /\
  Permutation ss (map py_str [VStr "dog"; VStr "cat"]) /\
  StronglySorted (fun a b => str_ltb a b = true) ss.
Proof.
  assert (Hin : In (VStr "x", [VStr "dog"; VStr "cat"])
                  (snd (apply_agreement_check (@rev value) (group_by_text sample_anns))))
    by (vm_compute; left; reflexivity).
  assert (Hs : forallb is_str [VStr "dog"; VStr "cat"] = true) by reflexivity.
  split; [exact rev_perm|]. split; [exact Hin|]. split; [exact Hs|].
  apply (report_line_labels_strict Q (@rev value) rev_perm sample_anns _ _ Hin Hs).
Defined.

Lemma write_report_none_label_witness :
  write_report sample_disagreements =
    (concat_strings (map (fun d => report_entry (fst d) (snd d)) sample_disagreements),
     None) /\
  In VNone (snd none_label_disagreement) /\
  write_report (sample_disagreements ++ none_label_disagreement :: sample_disagreements) =
    (concat_strings (map (fun d => report_entry (fst d) (snd d)) sample_disagreements),
     Some TypeError).
Proof.
  assert (H1 : write_report sample_disagreements =
    (concat_strings (map (fun d => report_entry (fst d) (snd d)) sample_disagreements),
     None)) by reflexivity.
  assert (Hn : In VNone (snd none_label_disagreement)) by (right; left; reflexivity).
  split; [exact H1|]. split; [exact Hn|].
  apply (write_report_none_label sample_disagreements (fst none_label_disagreement)
           (snd none_label_disagreement) sample_disagreements _ H1 Hn).
Defined.

Lemma run_ignores_dropped_record_witness :
  (dropped_record = [] \/
   (qc1 decimal_float q_ge (Qmake 8 10) (dict_reader_row header dropped_record) = None /\
    dict_lookup "confidence_score" (dict_reader_row header dropped_record)
      <> Some VNone)) /\
  run decimal_float q_ge (@rev value) header
    (sample_records ++ dropped_record :: sample_records) (Qmake 8 10) =
  run decimal_float q_ge (@rev value) header
    (sample_records ++ sample_records) (Qmake 8 10).
Proof.
  assert (H : dropped_record = [] \/
   (qc1 decimal_float q_ge (Qmake 8 10) (dict_reader_row header dropped_record) = None /\
    dict_lookup "confidence_score" (dict_reader_row header dropped_record)
      <> Some VNone)).
  { right. split; [reflexivity|]. vm_compute. discriminate. }
  split; [exact H|].
  apply (run_ignores_dropped_record Q decimal_float q_ge (@rev value) header
           sample_records dropped_record sample_records (Qmake 8 10) H).
Defined.

Lemma run_counts_witness :
  exists hc,
  filter_by_confidence decimal_float q_ge
    (read_raw_annotations header sample_records) (Qmake 8 10) = Ok hc /\
  let g := group_by_text hc in
  let R := apply_agreement_check (@rev value) g in
  length (read_raw_annotations header sample_records) <= length sample_records /\
  length hc <= length (read_raw_annotations header sample_records) /\
  length g <= length hc /\
  (g = [] <-> hc = []) /\
  length (fst R) + length (snd R) = length g.
Proof.
  eexists. split; [reflexivity|].
  apply (run_counts Q decimal_float q_ge (@rev value) header sample_records (Qmake 8 10)).
  reflexivity.
Defined.

Lemma run_clean_lines_NoDup_witness :
  exists o,
  run decimal_float q_ge (@rev value) header sample_records (Qmake 8 10) = Ok o /\
  NoDup (lines (clean_file o)).
Proof.
  eexists. split; [reflexivity|].
  apply (run_clean_lines_NoDup Q decimal_float q_ge (@rev value) header
           sample_records (Qmake 8 10)).
  reflexivity.
Defined.

Lemma run_ignores_repeated_record_witness :
  (forall l : list value, Permutation (rev l) l) /\
  In repeated_record sample_records /\
  run decimal_float q_ge (@rev value) header
    (sample_records ++ repeated_record :: sample_records) (Qmake 8 10) =
  run decimal_float q_ge (@rev value) header
    (sample_records ++ sample_records) (Qmake 8 10).
Proof.
  assert (Hr : In repeated_record sample_records) by (simpl; tauto).
  split; [exact rev_perm|]. split; [exact Hr|].
  apply (run_ignores_repeated_record decimal_float q_ge (@rev value) rev_perm header
           sample_records repeated_record sample_records (Qmake 8 10) Hr).
Defined.

Lemma run_no_accepted_witness :
  (forall r, In r (read_raw_annotations header [dropped_record; dropped_record]) ->
     qc1 decimal_float q_ge (Qmake 8 10) r = None /\
     dict_lookup "confidence_score" r <> Some VNone) /\
  run decimal_float q_ge (@rev value) header [dropped_record; dropped_record]
    (Qmake 8 10) =
  Ok (mk_outputs EmptyString EmptyString None).
Proof.
  assert (H : forall r, In r (read_raw_annotations header [dropped_record; dropped_record]) ->
     qc1 decimal_float q_ge (Qmake 8 10) r = None /\
     dict_lookup "confidence_score" r <> Some VNone).
  { intros r [<-|[<-|[]]]; (split; [reflexivity | vm_compute; discriminate]). }
  split; [exact H|].
  apply (run_no_accepted decimal_float q_ge (@rev value) header
           [dropped_record; dropped_record] (Qmake 8 10) H).
Defined.
